(** * Lock-detection webhook service: a shallow embedding and its properties

  The development follows the layout of the Python sources:
  - [Py], [Str]   the fragment of Python's dynamic values the code relies on;
  - [Result]      the result object of apps/lock_detector.py;
  - [Hmac]        SHA-256, HMAC and base64 as used by the signature check;
  - [DingTalkMessage], [DingTalkCallbackHandler], [DingTalkIO]
                  apps/dingtalk.py (message model, callback handler, sender);
  - [Database]    apps/database.py (the SQLite store);
  - [Runtime]     the state of the service and the collaborators it calls;
  - [LockDetector] apps/lock_detector.py (classification, persistence);
  - [DingTalkWebhookService], [Main]
                  apps/webhook_service.py and the endpoint of main.py. *)

From Stdlib Require Import ZArith Floats DecimalString.
From stdpp Require Import gmap strings list fin_maps.

Set Warnings "-register-all".
Open Scope Z_scope.

(** ** Python values, exceptions and results *)

Module Py.

(** Values that [json] hands to the program, and that the program passes
    around without checking their type. *)
Inductive pyval :=
| PNone
| PBool (b : bool)
| PInt (n : Z)
| PFloat (f : float)
| PStr (s : string)
| PList (l : list pyval)
| PDict (d : gmap string pyval).

Inductive exn :=
| KeyError (key : string)
| AttributeError (msg : string)
| TypeError (msg : string)
| OverflowError (msg : string)
| SqliteError (msg : string)
| HTTPException (status_code : Z) (detail : string)
| RuntimeError (msg : string).

Inductive res (A : Type) :=
| Ok (a : A)
| Raise (e : exn).
Arguments Ok {A} a.
Arguments Raise {A} e.

Definition rbind {A B} (r : res A) (k : A -> res B) : res B :=
  match r with
  | Ok a => k a
  | Raise e => Raise e
  end.

(** [bool(v)] *)
Definition truthy (v : pyval) : bool :=
  match v with
  | PNone => false
  | PBool b => b
  | PInt n => negb (n =? 0)
  | PFloat f => negb (PrimFloat.eqb f 0%float)
  | PStr s => negb (String.eqb s "")
  | PList l => match l with [] => false | _ => true end
  | PDict d => negb (bool_decide (d = ∅))
  end.

(** [v > 0]; Python 3 raises [TypeError] when [v] is not a number. *)
Definition gt_zero (v : pyval) : res bool :=
  match v with
  | PBool b => Ok b
  | PInt n => Ok (0 <? n)
  | PFloat f => Ok (PrimFloat.ltb 0%float f)
  | _ => Raise (TypeError "'>' not supported")
  end.

(** [v == 0] *)
Definition eq_zero (v : pyval) : bool :=
  match v with
  | PBool b => negb b
  | PInt n => n =? 0
  | PFloat f => PrimFloat.eqb f 0%float
  | _ => false
  end.

(** [d.get(key, default)] on a value that should be a dict. *)
Definition get (data : pyval) (key : string) (dflt : pyval) : res pyval :=
  match data with
  | PDict d => Ok (default dflt (d !! key))
  | _ => Raise (AttributeError "object has no attribute 'get'")
  end.

(** [max(a, b)] on floats: the first argument is kept unless [b > a]. *)
Definition fmax (a b : float) : float :=
  if PrimFloat.ltb a b then b else a.

End Py.
Import Py.

Declare Scope res_scope.
Delimit Scope res_scope with res.
Notation "x <- r ;; k" := (rbind r (fun x => k))
(at level 100, r at next level, right associativity) : res_scope.

Abbreviation time := Z.

(** ** apps/lock_detector.py: the aggregated result *)

Module Result.

(** One entry of [lock_details]. *)
Record lock_detail := {
  lock_type : string;
  is_locked : bool;
  confidence : float;
  bbox : gmap string Z;
  position_x : Z;
  position_y : Z;
  width : Z;
  height : Z
}.

Record LockDetectionResult := {
  is_safe : bool;
  total_locks : Z;
  unlocked_locks : Z;
  locked_locks : Z;
  lock_details : list lock_detail;
  confidence_score : float;
  detection_time : time
}.

(** [LockDetectionResult()], built at time [now]. *)
Definition new (now : time) : LockDetectionResult :=
  {| is_safe := true; total_locks := 0; unlocked_locks := 0; locked_locks := 0;
     lock_details := []; confidence_score := 0%float; detection_time := now |}.

(** [bbox[key]] *)
Definition item (bbox : gmap string Z) (key : string) : res Z :=
  match bbox !! key with
  | Some v => Ok v
  | None => Raise (KeyError key)
  end.

(** [add_lock]: the detail dict is built first (and may raise [KeyError]),
    only then is the object updated.  The coordinates are integers at every
    call site, so [int(...)] is the identity. *)
Definition add_lock (self : LockDetectionResult) (lock_type : string)
    (is_locked : bool) (confidence : float) (bbox : gmap string Z)
  : res LockDetectionResult :=
  (xmin <- item bbox "xmin";;
   ymin <- item bbox "ymin";;
   xmax <- item bbox "xmax";;
   xmin' <- item bbox "xmin";;
   ymax <- item bbox "ymax";;
   ymin' <- item bbox "ymin";;
   let lock_detail :=
     {| Result.lock_type := lock_type; Result.is_locked := is_locked;
        Result.confidence := confidence; Result.bbox := bbox;
        position_x := xmin; position_y := ymin;
        width := xmax - xmin'; height := ymax - ymin' |} in
   Ok {| lock_details := self.(lock_details) ++ [lock_detail];
         total_locks := self.(total_locks) + 1;
         locked_locks :=
           if is_locked then self.(locked_locks) + 1 else self.(locked_locks);
         unlocked_locks :=
           if is_locked then self.(unlocked_locks) else self.(unlocked_locks) + 1;
         is_safe := if is_locked then self.(is_safe) else false;
         confidence_score := fmax self.(confidence_score) confidence;
         detection_time := self.(detection_time) |})%res.

(** The results a caller can obtain from a fresh object by calling
    [add_lock]; a call that raises leaves the object as it was. *)
Inductive reachable (now : time) : LockDetectionResult -> Prop :=
| reach_new : reachable now (new now)
| reach_add r r' ty lk c bb :
    reachable now r -> add_lock r ty lk c bb = Ok r' -> reachable now r'.

Definition counts_ok (r : LockDetectionResult) : Prop :=
  0 <= r.(unlocked_locks) /\
  r.(locked_locks) + r.(unlocked_locks) = r.(total_locks) /\
  (r.(is_safe) = true <-> r.(unlocked_locks) = 0).

Definition bbox_of (xmin ymin xmax ymax : Z) : gmap string Z :=
  <["xmin" := xmin]> (<["ymin" := ymin]> (<["xmax" := xmax]> (<["ymax" := ymax]> ∅))).

End Result.

(** ** hashlib / hmac / base64, as the signature check uses them *)

Module Hmac.

Abbreviation bytes := (list Z).

(** A Python [str] is kept as the bytes of its UTF-8 encoding, so
    [s.encode('utf-8')] reads the characters off. *)
Definition encode (s : string) : bytes :=
  map (fun c => Z.of_N (Ascii.N_of_ascii c)) (String.list_ascii_of_string s).

Definition decode (b : bytes) : string :=
  String.string_of_list_ascii (map (fun z => Ascii.ascii_of_N (Z.to_N z)) b).

Definition w32 (x : Z) : Z := Z.land x 0xFFFFFFFF.
Definition add32 (x y : Z) : Z := w32 (x + y).
Definition rotr (n x : Z) : Z := Z.lor (Z.shiftr x n) (w32 (Z.shiftl x (32 - n))).
Definition not32 (x : Z) : Z := Z.lxor x 0xFFFFFFFF.

Definition Ch (x y z : Z) : Z := Z.lxor (Z.land x y) (Z.land (not32 x) z).
Definition Maj (x y z : Z) : Z :=
  Z.lxor (Z.lxor (Z.land x y) (Z.land x z)) (Z.land y z).
Definition Sigma0 (x : Z) : Z := Z.lxor (Z.lxor (rotr 2 x) (rotr 13 x)) (rotr 22 x).
Definition Sigma1 (x : Z) : Z := Z.lxor (Z.lxor (rotr 6 x) (rotr 11 x)) (rotr 25 x).
Definition sigma0 (x : Z) : Z := Z.lxor (Z.lxor (rotr 7 x) (rotr 18 x)) (Z.shiftr x 3).
Definition sigma1 (x : Z) : Z := Z.lxor (Z.lxor (rotr 17 x) (rotr 19 x)) (Z.shiftr x 10).

(** The round constants are the first 32 bits of the fractional parts of the
    cube roots of the first 64 primes, the initial hash value those of the
    square roots of the first 8. *)
Definition is_prime (n : nat) : bool :=
  forallb (fun d => negb (n mod d =? 0)%nat) (seq 2 (n - 2)).

Definition primes : list Z := map Z.of_nat (List.filter is_prime (seq 2 310)).

Fixpoint root3 (bits : nat) (n r : Z) : Z :=
  match bits with
  | O => r
  | S b =>
      let c := r + 2 ^ Z.of_nat b in
      root3 b n (if c * c * c <=? n then c else r)
  end.

Definition K256 : list Z :=
  Eval vm_compute in map (fun p => w32 (root3 36 (p * 2 ^ 96) 0)) primes.

Definition H256 : list Z :=
  Eval vm_compute in map (fun p => w32 (Z.sqrt (p * 2 ^ 64))) (take 8 primes).

(** The message schedule: [n] further words from a window of the last 16. *)
Fixpoint schedule (n : nat) (win : list Z) : list Z :=
  match n with
  | O => []
  | S n' =>
      let w := add32 (add32 (sigma1 (nth 14 win 0)) (nth 9 win 0))
                     (add32 (sigma0 (nth 1 win 0)) (nth 0 win 0)) in
      w :: schedule n' (tl win ++ [w])
  end.

Definition round (st : list Z) (kw : Z * Z) : list Z :=
  match st with
  | [a; b; c; d; e; f; g; h] =>
      let t1 := add32 (add32 (add32 h (Sigma1 e)) (add32 (Ch e f g) (fst kw))) (snd kw) in
      let t2 := add32 (Sigma0 a) (Maj a b c) in
      [add32 t1 t2; a; b; c; add32 d t1; e; f; g]
  | _ => st
  end.

(** Big-endian words of a block of bytes. *)
Fixpoint words (b : bytes) : list Z :=
  match b with
  | b0 :: b1 :: b2 :: b3 :: rest =>
      (Z.shiftl b0 24 + Z.shiftl b1 16 + Z.shiftl b2 8 + b3) :: words rest
  | _ => []
  end.

Definition compress (h : list Z) (block : bytes) : list Z :=
  let w16 := words block in
  let w := w16 ++ schedule 48 w16 in
  zip_with add32 h (fold_left round (zip K256 w) h).

Fixpoint blocks (n : nat) (h : list Z) (b : bytes) : list Z :=
  match n with
  | O => h
  | S n' => blocks n' (compress h (take 64 b)) (drop 64 b)
  end.

Definition be (nbytes : nat) (x : Z) : bytes :=
  map (fun i => Z.land (Z.shiftr x (8 * Z.of_nat (nbytes - 1 - i))) 0xFF) (seq 0 nbytes).

Definition pad (msg : bytes) : bytes :=
  let len := Z.of_nat (length msg) in
  let zeros := Z.to_nat ((55 - len) mod 64) in
  msg ++ [0x80] ++ replicate zeros 0 ++ be 8 (8 * len).

Definition sha256 (msg : bytes) : bytes :=
  let p := pad msg in
  flat_map (be 4) (blocks (length p / 64) H256 p).

(** [hmac.new(key, msg, digestmod=hashlib.sha256).digest()] *)
Definition hmac_sha256 (key msg : bytes) : bytes :=
  let k := if (64 <? Z.of_nat (length key)) then sha256 key else key in
  let k := k ++ replicate (64 - length k) 0 in
  sha256 (map (Z.lxor 0x5c) k ++ sha256 (map (Z.lxor 0x36) k ++ msg)).

Definition b64_alphabet : bytes :=
  encode "ABCDEFGHIJKLMNOPQRSTUVWXYZabcdefghijklmnopqrstuvwxyz0123456789+/".

Definition b64_char (i : Z) : Z := nth (Z.to_nat i) b64_alphabet 0.

(** [base64.b64encode] *)
Fixpoint b64encode (b : bytes) : bytes :=
  match b with
  | [] => []
  | [x] =>
      [b64_char (Z.shiftr x 2); b64_char (Z.shiftl (Z.land x 3) 4); 61; 61]
  | [x; y] =>
      [b64_char (Z.shiftr x 2);
       b64_char (Z.lor (Z.shiftl (Z.land x 3) 4) (Z.shiftr y 4));
       b64_char (Z.shiftl (Z.land y 15) 2); 61]
  | x :: y :: z :: rest =>
      [b64_char (Z.shiftr x 2);
       b64_char (Z.lor (Z.shiftl (Z.land x 3) 4) (Z.shiftr y 4));
       b64_char (Z.lor (Z.shiftl (Z.land y 15) 2) (Z.shiftr z 6));
       b64_char (Z.land z 63)] ++ b64encode rest
  end.

Definition hex (b : bytes) : string :=
  decode (flat_map (fun x =>
    [nth (Z.to_nat (Z.shiftr x 4)) (encode "0123456789abcdef") 0;
     nth (Z.to_nat (Z.land x 15)) (encode "0123456789abcdef") 0]) b).

End Hmac.

(** ** Strings *)

Module Str.

Definition nl : string := String (Ascii.ascii_of_nat 10) "".

(** [needle in haystack] on two strings. *)
Fixpoint is_infix (needle haystack : string) : bool :=
  String.prefix needle haystack ||
  match haystack with
  | EmptyString => false
  | String _ rest => is_infix needle rest
  end.

Definition lower_ascii (c : Ascii.ascii) : Ascii.ascii :=
  let n := Ascii.nat_of_ascii c in
  if ((65 <=? n) && (n <=? 90))%nat then Ascii.ascii_of_nat (n + 32) else c.

(** [s.lower()].  Only the ASCII letters are mapped: the case mappings of the
    other characters neither create nor remove the characters the mention
    check looks for. *)
Fixpoint lower (s : string) : string :=
  match s with
  | EmptyString => EmptyString
  | String c rest => String (lower_ascii c) (lower rest)
  end.

(** [str(n)] for an integer. *)
Definition of_Z (n : Z) : string := DecimalString.NilZero.string_of_int (Z.to_int n).

End Str.

(** ** apps/dingtalk.py: the message model *)

(** [Content] declares one field and, unlike its three siblings, no
    [from_dict]. *)
Module Content.
Record t := { content : pyval }.
Definition new : t := {| content := PStr "" |}.
End Content.

Module Images.
Record t := { download_code : pyval; image_url : pyval; image_size : pyval }.
Definition new : t :=
  {| download_code := PList []; image_url := PList []; image_size := PList [] |}.
Definition from_dict (data : pyval) : res t :=
  (download_code <- get data "downloadCode" (PList []);;
   image_url <- get data "imageUrl" (PList []);;
   image_size <- get data "imageSize" (PList []);;
   Ok {| download_code := download_code; image_url := image_url;
         image_size := image_size |})%res.
End Images.

Module AtUsers.
Record t := { dingtalk_id : pyval; staff_id : pyval }.
Definition new : t := {| dingtalk_id := PList []; staff_id := PList [] |}.
Definition from_dict (data : pyval) : res t :=
  (dingtalk_id <- get data "dingtalkId" (PList []);;
   staff_id <- get data "staffId" (PList []);;
   Ok {| dingtalk_id := dingtalk_id; staff_id := staff_id |})%res.
End AtUsers.

Module Text.
Record t := { content : pyval }.
Definition new : t := {| content := PStr "" |}.
Definition from_dict (data : pyval) : res t :=
  (content <- get data "content" (PStr "");;
   Ok {| content := content |})%res.
End Text.

Module DingTalkMessage.

Record t := {
  chatbot_user_id : pyval;
  conversation_type : pyval;
  msg_id : pyval;
  create_at : pyval;
  conversation_title : pyval;
  sender_id : pyval;
  sender_nick : pyval;
  session_webhook : pyval;
  session_webhook_expired_time : pyval;
  content : Content.t;
  images : Images.t;
  msg_type : pyval;
  at_users : AtUsers.t;
  text : Text.t
}.

(** [DingTalkMessage()] *)
Definition new : t :=
  {| chatbot_user_id := PStr ""; conversation_type := PStr ""; msg_id := PStr "";
     create_at := PStr ""; conversation_title := PStr ""; sender_id := PStr "";
     sender_nick := PStr ""; session_webhook := PStr "";
     session_webhook_expired_time := PInt 0;
     content := Content.new; images := Images.new; msg_type := PStr "";
     at_users := AtUsers.new; text := Text.new |}.

(** [key in data], reached only after [data.get] has succeeded. *)
Definition has_key (data : pyval) (key : string) : bool :=
  match data with
  | PDict d => bool_decide (is_Some (d !! key))
  | _ => false
  end.

(** [data[key]] *)
Definition item (data : pyval) (key : string) : res pyval :=
  match data with
  | PDict d => match d !! key with Some v => Ok v | None => Raise (KeyError key) end
  | _ => Raise (TypeError "object is not subscriptable")
  end.

(** The nested object under [key], parsed by [parse] when the key is present. *)
Definition nested {A} (data : pyval) (key : string) (parse : pyval -> res A)
    (dflt : A) : res A :=
  if has_key data key then (v <- item data key;; parse v)%res else Ok dflt.

(** What Python says when [Content.from_dict] is looked up: the metaclass
    of pydantic's [BaseModel] raises [AttributeError] with the name of the
    attribute. *)
Definition no_from_dict : string := "from_dict".

(** [from_dict].  The [content] branch looks up [Content.from_dict], which the
    class does not have. *)
Definition from_dict (data : pyval) : res t :=
  (chatbot_user_id <- get data "chatbotUserId" (PStr "");;
   conversation_type <- get data "conversationType" (PStr "");;
   msg_id <- get data "msgId" (PStr "");;
   create_at <- get data "createAt" (PStr "");;
   conversation_title <- get data "conversationTitle" (PStr "");;
   sender_id <- get data "senderId" (PStr "");;
   sender_nick <- get data "senderNick" (PStr "");;
   session_webhook <- get data "sessionWebhook" (PStr "");;
   session_webhook_expired_time <- get data "sessionWebhookExpiredTime" (PInt 0);;
   msg_type <- get data "msgType" (PStr "");;
   content <-
     (if has_key data "content"
      then Raise (AttributeError no_from_dict)
      else Ok Content.new);;
   images <- nested data "images" Images.from_dict Images.new;;
   at_users <- nested data "atUsers" AtUsers.from_dict AtUsers.new;;
   text <- nested data "text" Text.from_dict Text.new;;
   Ok {| chatbot_user_id := chatbot_user_id; conversation_type := conversation_type;
         msg_id := msg_id; create_at := create_at;
         conversation_title := conversation_title; sender_id := sender_id;
         sender_nick := sender_nick; session_webhook := session_webhook;
         session_webhook_expired_time := session_webhook_expired_time;
         content := content; images := images; msg_type := msg_type;
         at_users := at_users; text := text |})%res.

End DingTalkMessage.

(** ** apps/dingtalk.py: the callback handler (the part without I/O) *)

Module DingTalkCallbackHandler.

Record t := { app_key : string; app_secret : string }.

(** [verify_signature].  The request body is fetched but not used; on strings
    nothing in the body of the [try] raises, so the [except] branch (which
    returns [False]) stays out of the model. *)
Definition verify_signature (self : t) (timestamp sign : string) : bool :=
  let string_to_sign := Hmac.encode (timestamp ++ Str.nl ++ sign) in
  let hmac_code := Hmac.hmac_sha256 (Hmac.encode self.(app_secret)) string_to_sign in
  let signature := Hmac.decode (Hmac.b64encode hmac_code) in
  String.eqb signature sign.

(** [needle in v] for a string [needle]. *)
Definition contains (v : pyval) (needle : string) : res bool :=
  match v with
  | PStr s => Ok (Str.is_infix needle s)
  | PList l =>
      Ok (existsb (fun x => match x with PStr s => String.eqb needle s | _ => false end) l)
  | PDict d => Ok (bool_decide (is_Some (d !! needle)))
  | _ => Raise (TypeError "argument is not iterable")
  end.

(** [v.lower()] *)
Definition lower (v : pyval) : res string :=
  match v with
  | PStr s => Ok (Str.lower s)
  | _ => Raise (AttributeError "object has no attribute 'lower'")
  end.

Definition is_mentioned_to_bot (self : t) (message : DingTalkMessage.t) : res bool :=
  (in_text <-
     (if truthy message.(DingTalkMessage.text).(Text.content)
      then text_content <- lower message.(DingTalkMessage.text).(Text.content);;
           Ok (Str.is_infix "@" text_content || Str.is_infix "机器人" text_content)
      else Ok false);;
   if in_text : bool then Ok true
   else contains message.(DingTalkMessage.at_users).(AtUsers.dingtalk_id) self.(app_key))%res.

(** The elements [list.extend(v)] appends.  A list gives its elements.  A
    string, kept as the bytes of its UTF-8 form, is read byte by byte, which
    is Python's reading for ASCII text; a dict gives its keys in the order of
    the map, where Python gives them in the order of insertion. *)
Definition iterate (v : pyval) : res (list pyval) :=
  match v with
  | PList l => Ok l
  | PStr s => Ok (map (fun c => PStr (String c "")) (String.list_ascii_of_string s))
  | PDict d => Ok (map (fun kv => PStr (fst kv)) (map_to_list d))
  | _ => Raise (TypeError "object is not iterable")
  end.

Definition extract_image_urls (message : DingTalkMessage.t) : res (list pyval) :=
  if truthy message.(DingTalkMessage.images).(Images.image_url)
  then iterate message.(DingTalkMessage.images).(Images.image_url)
  else Ok [].

Definition extract_text_content (message : DingTalkMessage.t) : pyval :=
  message.(DingTalkMessage.text).(Text.content).

End DingTalkCallbackHandler.

(** ** apps/database.py: the SQLite store *)

Module Database.

Record DetectionResult := {
  id : option Z;
  image_url : string;
  image_hash : string;
  detection_time : time;
  locks_detected : Z;
  unlocked_locks : Z;
  lock_positions : string;
  confidence_score : float;
  dingtalk_message_id : pyval;
  user_id : pyval;
  group_id : pyval;
  is_safe : bool
}.

(** A row of [detection_results]: the surrogate key, the columns that
    [save_detection_result] writes, and [created_at]. *)
Record detection_row := {
  row_id : Z;
  row_values : DetectionResult;
  created_at : time
}.

(** A row of [lock_details]. *)
Record lock_row := {
  ld_id : Z;
  detection_id : Z;
  lock_type : string;
  is_locked : bool;
  confidence : float;
  position_x : Z;
  position_y : Z;
  width : Z;
  height : Z
}.

(** The two tables, each with the counter SQLite keeps in [sqlite_sequence]
    for an [AUTOINCREMENT] key.  Rows are kept in the order of their keys. *)
Record t := {
  detection_results : list detection_row;
  detection_results_seq : Z;
  lock_details : list lock_row;
  lock_details_seq : Z
}.

(** [init_database] on a new file. *)
Definition empty : t :=
  {| detection_results := []; detection_results_seq := 0;
     lock_details := []; lock_details_seq := 0 |}.

Definition max_rowid : Z := 2 ^ 63 - 1.

Definition int64 (n : Z) : bool := (- 2 ^ 63 <=? n) && (n <=? max_rowid).

(** Binding a Python value to a [?]: [sqlite3] takes [None], numbers and
    strings, and raises on anything else and on integers beyond 64 bits. *)
Definition bind_int (n : Z) : res unit :=
  if int64 n then Ok tt
  else Raise (OverflowError "Python int too large to convert to SQLite INTEGER").

Definition bind (v : pyval) : res unit :=
  match v with
  | PInt n => bind_int n
  | PList _ | PDict _ => Raise (SqliteError "Error binding parameter")
  | _ => Ok tt
  end.

(** The key SQLite gives to a new row of an [AUTOINCREMENT] table: one more
    than the largest key the table has ever held. *)
Definition largest_key (keys : list Z) (seq : Z) : Z :=
  Z.max (fold_right Z.max 0 keys) seq.

Definition next_rowid (keys : list Z) (seq : Z) : res Z :=
  let largest := largest_key keys seq in
  if max_rowid <=? largest then Raise (SqliteError "database or disk is full")
  else Ok (largest + 1).

(** The records whose values [sqlite3] accepts. *)
Definition bindable (v : pyval) : bool :=
  match bind v with Ok _ => true | Raise _ => false end.

Definition storable (result : DetectionResult) : bool :=
  int64 result.(locks_detected) && int64 result.(unlocked_locks)
  && bindable result.(dingtalk_message_id) && bindable result.(user_id)
  && bindable result.(group_id).

(** The ids that a query gives back as they were written.  The columns
    [dingtalk_message_id], [user_id] and [group_id] are declared [TEXT]:
    [None] and a string are kept as they are, whereas a number, which
    [sqlite3] binds as a number, is kept as its text ([7] comes back as
    ['7'], [True] as ['1']).  The rows below hold the value that was bound,
    so what is said about the ids of a stored row is said for these ids. *)
Definition text_id (v : pyval) : bool :=
  match v with
  | PNone | PStr _ => true
  | _ => false
  end.

Definition text_ids (result : DetectionResult) : bool :=
  text_id result.(dingtalk_message_id) && text_id result.(user_id)
  && text_id result.(group_id).

(** [save_detection_result]: [INSERT OR REPLACE] with [image_hash UNIQUE].
    The new key is drawn first; the rows in conflict on [image_hash] are
    deleted; the new row is inserted; [lastrowid] is returned.  The row
    keeps the values as they were bound (see [text_id] for the ids). *)
Definition save_detection_result (db : t) (now : time) (result : DetectionResult)
  : res (t * Z) :=
  (_ <- bind_int result.(locks_detected);;
   _ <- bind_int result.(unlocked_locks);;
   _ <- bind result.(dingtalk_message_id);;
   _ <- bind result.(user_id);;
   _ <- bind result.(group_id);;
   result_id <- next_rowid (map row_id db.(detection_results)) db.(detection_results_seq);;
   let kept :=
     filter (fun r => r.(row_values).(image_hash) ≠ result.(image_hash))
            db.(detection_results) in
   let inserted :=
     {| row_id := result_id; row_values := result; created_at := now |} in
   Ok ({| detection_results := kept ++ [inserted];
          detection_results_seq := result_id;
          lock_details := db.(lock_details);
          lock_details_seq := db.(lock_details_seq) |}, result_id))%res.

(** One [INSERT INTO lock_details]. *)
Definition insert_lock_detail (db : t) (detection_id : Z) (detail : Result.lock_detail)
  : res t :=
  (_ <- bind_int detection_id;;
   _ <- bind_int detail.(Result.position_x);;
   _ <- bind_int detail.(Result.position_y);;
   _ <- bind_int detail.(Result.width);;
   _ <- bind_int detail.(Result.height);;
   key <- next_rowid (map ld_id db.(lock_details)) db.(lock_details_seq);;
   let inserted :=
     {| ld_id := key; detection_id := detection_id;
        lock_type := detail.(Result.lock_type);
        is_locked := detail.(Result.is_locked);
        confidence := detail.(Result.confidence);
        position_x := detail.(Result.position_x);
        position_y := detail.(Result.position_y);
        width := detail.(Result.width);
        height := detail.(Result.height) |} in
   Ok {| detection_results := db.(detection_results);
         detection_results_seq := db.(detection_results_seq);
         lock_details := db.(lock_details) ++ [inserted];
         lock_details_seq := key |})%res.

(** [save_lock_details]: one transaction; an exception rolls every insert of
    the call back, so the caller's store is the one to keep on [Raise]. *)
Fixpoint save_lock_details (db : t) (detection_id : Z)
    (lock_details : list Result.lock_detail) : res t :=
  match lock_details with
  | [] => Ok db
  | detail :: rest =>
      (db' <- insert_lock_detail db detection_id detail;;
       save_lock_details db' detection_id rest)%res
  end.

(** The query of [get_detection_by_id]. *)
Definition select_by_id (db : t) (detection_id : Z) : option detection_row :=
  head (filter (fun r => r.(row_id) = detection_id) db.(detection_results)).

(** The rows that carry a given fingerprint. *)
Definition select_by_hash (db : t) (h : string) : list detection_row :=
  filter (fun r => r.(row_values).(image_hash) = h) db.(detection_results).

(** SQLite's [SUM] over integers: an overflow of the running 64-bit sum is an
    error. *)
Fixpoint sum_int64 (acc : Z) (xs : list Z) : res Z :=
  match xs with
  | [] => Ok acc
  | x :: rest =>
      if int64 (acc + x) then sum_int64 (acc + x) rest
      else Raise (SqliteError "integer overflow")
  end.

(** Stores whose two count columns hold counts, with totals within 64 bits. *)
Definition counts_fit (db : t) : bool :=
  let rows := map row_values db.(detection_results) in
  forallb (Z.leb 0) (map locks_detected rows)
  && forallb (Z.leb 0) (map unlocked_locks rows)
  && (fold_right Z.add 0 (map locks_detected rows) <=? max_rowid)
  && (fold_right Z.add 0 (map unlocked_locks rows) <=? max_rowid).

Definition float_of_Z (n : Z) : float :=
  if 0 <=? n then PrimFloat.of_uint63 (Uint63.of_Z n)
  else PrimFloat.opp (PrimFloat.of_uint63 (Uint63.of_Z (- n))).

(** [a / b] on two integers that a float holds exactly. *)
Definition truediv (a b : Z) : float := PrimFloat.div (float_of_Z a) (float_of_Z b).

Record statistics := {
  total_detections : Z;
  unsafe_detections : Z;
  total_locks : Z;
  total_unlocked : Z;
  today_detections : Z;
  safety_rate : pyval
}.

(** [DATE(t)], with [t] counted in seconds. *)
Definition date (t : time) : Z := t / 86400.

(** [get_statistics]; [today] is SQLite's [DATE('now')]. *)
Definition get_statistics (db : t) (today : Z) : res statistics :=
  let rows := map row_values db.(detection_results) in
  let total_detections := Z.of_nat (length rows) in
  let unsafe_detections :=
    Z.of_nat (length (filter (fun r => r.(is_safe) = false) rows)) in
  (total_locks <- sum_int64 0 (map locks_detected rows);;
   total_unlocked <- sum_int64 0 (map unlocked_locks rows);;
   let today_detections :=
     Z.of_nat (length (filter (fun r => date r.(detection_time) = today) rows)) in
   Ok {| total_detections := total_detections;
         unsafe_detections := unsafe_detections;
         total_locks := total_locks;
         total_unlocked := total_unlocked;
         today_detections := today_detections;
         safety_rate :=
           if 0 <? total_detections
           then PFloat (PrimFloat.mul
                          (truediv (total_detections - unsafe_detections) total_detections)
                          100%float)
           else PInt 100 |})%res.

End Database.

(** ** The world around the service *)

Module Runtime.

(** A PIL image: its size and its raw bytes. *)
Record Image := { size : Z * Z; pixels : list Z }.

(** One element of the list [model.predict] returns: [probs] is absent, or
    carries the top-1 class and its confidence. *)
Record prediction := { probs : option (Z * float) }.

(** The JSON bodies the sender posts. *)
Inductive outmsg :=
| TextMsg (content : string)
| ImageMsg (url : string)
| MarkdownMsg (title text : string).

Inductive level := INFO | WARNING | ERROR.

(** What the service does to the outside, in order. *)
Inductive event :=
| Log (lvl : level) (text : string)
| Get (url : pyval)
| Predict (image : Image) (conf : float)
| Draw (image : Image) (class_name : string) (confidence : float)
| Reply (msg : outmsg)
| Post (url : pyval) (msg : outmsg).

(** The collaborators the repository calls but does not define. *)
Record Externals := {
  (** the k-th reading of the clock *)
  clock : nat -> time;
  (** [str(v)] for a value that is not a string, [str(e)] for an exception,
      [json.dumps] of a value and of the detail list *)
  repr : pyval -> string;
  str_exn : exn -> string;
  json_text : pyval -> string;
  json_dumps : list Result.lock_detail -> string;
  (** [strftime('%Y-%m-%d %H:%M:%S')] and the format [:.2f] *)
  strftime : time -> string;
  format_2f : float -> string;
  (** aiohttp: GET gives a status and a body, POST a status and the parsed
      JSON answer; both may raise *)
  http_get : pyval -> res (Z * list Z);
  http_post : pyval -> outmsg -> res (Z * res pyval);
  (** PIL: decoding, the MD5 of the grey-scale bytes, the drawing of
      apps/detech.py, and the JPEG/base64 text of [_image_to_base64] *)
  image_open : list Z -> res Image;
  md5_gray : Image -> res string;
  create_classification_visualization : Image -> string -> float -> res Image;
  image_to_base64 : Image -> string;
  (** the classifier *)
  predict : Image -> float -> res (list prediction);
  (** whether the k-th access to the database file fails *)
  db_fault : nat -> bool
}.

(** The mutable state: the global [db_manager], the sender's URL, the session
    slot of the webhook service, and what has been done so far. *)
Record world := {
  db : Database.t;
  webhook_url : pyval;
  session_webhook : pyval;
  session_webhook_expired_time : pyval;
  trace : list event;
  clock_reads : nat;
  db_calls : nat
}.

(** Computations that change the world and return or raise; the world
    keeps the changes made before a raise. *)
Definition M (A : Type) : Type := world -> res A * world.

Definition ret {A} (a : A) : M A := fun w => (Ok a, w).

Definition raise {A} (e : exn) : M A := fun w => (Raise e, w).

Definition bind {A B} (m : M A) (k : A -> M B) : M B :=
  fun w =>
    match m w with
    | (Ok a, w') => k a w'
    | (Raise e, w') => (Raise e, w')
    end.

(** [try: body except Exception as e: handler] *)
Definition try_except {A} (body : M A) (handler : exn -> M A) : M A :=
  fun w =>
    match body w with
    | (Ok a, w') => (Ok a, w')
    | (Raise e, w') => handler e w'
    end.

Definition lift {A} (r : res A) : M A := fun w => (r, w).

Definition emit (e : event) : M unit :=
  fun w =>
    (Ok tt,
     {| db := w.(db); webhook_url := w.(webhook_url);
        session_webhook := w.(session_webhook);
        session_webhook_expired_time := w.(session_webhook_expired_time);
        trace := w.(trace) ++ [e];
        clock_reads := w.(clock_reads); db_calls := w.(db_calls) |}).

Definition logger (lvl : level) (text : string) : M unit := emit (Log lvl text).

(** [datetime.now()] *)
Definition now (E : Externals) : M time :=
  fun w =>
    (Ok (E.(clock) w.(clock_reads)),
     {| db := w.(db); webhook_url := w.(webhook_url);
        session_webhook := w.(session_webhook);
        session_webhook_expired_time := w.(session_webhook_expired_time);
        trace := w.(trace);
        clock_reads := S w.(clock_reads); db_calls := w.(db_calls) |}).

(** A transaction on the database file: it fails as a whole when the file
    cannot be reached or when the statement raises, and commits otherwise. *)
Definition transaction {A} (E : Externals) (stmt : Database.t -> res (Database.t * A))
  : M A :=
  fun w =>
    let w' db' :=
      {| db := db'; webhook_url := w.(webhook_url);
         session_webhook := w.(session_webhook);
         session_webhook_expired_time := w.(session_webhook_expired_time);
         trace := w.(trace);
         clock_reads := w.(clock_reads); db_calls := S w.(db_calls) |} in
    if E.(db_fault) w.(db_calls)
    then (Raise (SqliteError "unable to open database file"), w' w.(db))
    else match stmt w.(db) with
         | Ok (db', a) => (Ok a, w' db')
         | Raise e => (Raise e, w' w.(db))
         end.

Definition set_session (url expired : pyval) : M unit :=
  fun w =>
    (Ok tt,
     {| db := w.(db); webhook_url := url;
        session_webhook := url;
        session_webhook_expired_time := expired;
        trace := w.(trace);
        clock_reads := w.(clock_reads); db_calls := w.(db_calls) |}).

Definition get_webhook_url : M pyval := fun w => (Ok w.(webhook_url), w).

(** [str(v)] inside an f-string. *)
Definition str (E : Externals) (v : pyval) : string :=
  match v with
  | PStr s => s
  | _ => E.(repr) v
  end.

(** The part of a trace that reaches the chat: replies handed to the sender. *)
Definition replies (tr : list event) : list outmsg :=
  omap (fun e => match e with Reply m => Some m | _ => None end) tr.

(** Whether an event is a log entry. *)
Definition is_log (e : event) : bool :=
  match e with Log _ _ => true | _ => false end.

(** What the service did apart from logging. *)
Definition non_log (tr : list event) : list event :=
  List.filter (fun e => negb (is_log e)) tr.

(** Whether an event belongs to fetching or classifying an image. *)
Definition is_pipeline (e : event) : bool :=
  match e with Get _ | Predict _ _ | Draw _ _ _ => true | _ => false end.

(** The same surroundings with another behaviour of the database file. *)
Definition with_db_fault (E : Externals) (fault : nat -> bool) : Externals :=
  {| clock := E.(clock); repr := E.(repr); str_exn := E.(str_exn);
     json_text := E.(json_text); json_dumps := E.(json_dumps);
     strftime := E.(strftime); format_2f := E.(format_2f);
     http_get := E.(http_get); http_post := E.(http_post);
     image_open := E.(image_open); md5_gray := E.(md5_gray);
     create_classification_visualization := E.(create_classification_visualization);
     image_to_base64 := E.(image_to_base64);
     predict := E.(predict);
     db_fault := fault |}.

(** Two states that differ at most in the store and in what was logged. *)
Definition same_outside_store (w1 w2 : world) : Prop :=
  w1.(webhook_url) = w2.(webhook_url) /\
  w1.(session_webhook) = w2.(session_webhook) /\
  w1.(session_webhook_expired_time) = w2.(session_webhook_expired_time) /\
  w1.(clock_reads) = w2.(clock_reads) /\
  non_log w1.(trace) = non_log w2.(trace).

(** Two computations that, from such states, return the same and lead to
    such states again. *)
Definition agree {A} (m1 m2 : M A) : Prop :=
  forall w1 w2, same_outside_store w1 w2 ->
    fst (m1 w1) = fst (m2 w2) /\ same_outside_store (snd (m1 w1)) (snd (m2 w2)).

(** The same, for computations that both return but not necessarily the
    same value. *)
Definition agree_returning {A} (m1 m2 : M A) : Prop :=
  forall w1 w2, same_outside_store w1 w2 ->
    (exists a1, fst (m1 w1) = Ok a1) /\ (exists a2, fst (m2 w2) = Ok a2) /\
    same_outside_store (snd (m1 w1)) (snd (m2 w2)).

(** A computation that returns from every state; [P] holds of what it
    returns and of the replies it has handed to the sender. *)
Definition answers {A} (m : M A) (P : A -> list outmsg -> Prop) : Prop :=
  forall w, exists a w' sent,
    m w = (Ok a, w') /\ replies w'.(trace) = replies w.(trace) ++ sent /\ P a sent.

End Runtime.

Declare Scope m_scope.
Delimit Scope m_scope with M.
Notation "x <- m ;; k" := (Runtime.bind m (fun x => k))
(at level 100, m at next level, right associativity) : m_scope.

(** ** apps/dingtalk.py: the parts with I/O *)

Module DingTalkIO.
Import Runtime.

Section WithExternals.
Variable E : Externals.

(** [DingTalkCallbackHandler.parse_callback_message] *)
Definition parse_callback_message (data : pyval) : M DingTalkMessage.t :=
  try_except
    (lift (DingTalkMessage.from_dict data))
    (fun e =>
       (_ <- logger ERROR ("解析回调消息失败: " ++ E.(str_exn) e);;
        raise (HTTPException 400 "消息格式错误"))%M).

(** The URL [download_image] builds. *)
Definition download_url (image_url download_code : pyval) : pyval :=
  if truthy download_code
  then PStr (str E image_url ++ "?downloadCode=" ++ str E download_code)
  else image_url.

(** [DingTalkCallbackHandler.download_image] *)
Definition download_image (image_url download_code : pyval) : M (option Image) :=
  try_except
    (let download_url := download_url image_url download_code in
     _ <- emit (Get download_url);;
     response <- lift (E.(http_get) download_url);;
     if fst response =? 200
     then image <- lift (E.(image_open) (snd response));; ret (Some image)
     else _ <- logger ERROR ("下载图片失败: HTTP " ++ Str.of_Z (fst response));;
          ret None)%M
    (fun e =>
       (_ <- logger ERROR ("下载图片失败: " ++ E.(str_exn) e);; ret None)%M).

(** [DingTalkMessageSender._send_message] *)
Definition _send_message (message : outmsg) : M bool :=
  try_except
    (url <- get_webhook_url;;
     if negb (truthy url)
     then _ <- logger ERROR "Webhook URL 未设置";; ret false
     else
       _ <- emit (Post url message);;
       response <- lift (E.(http_post) url message);;
       if fst response =? 200
       then result <- lift (snd response);;
            errcode <- lift (Py.get result "errcode" PNone);;
            if eq_zero errcode
            then _ <- logger INFO "消息发送成功";; ret true
            else _ <- logger ERROR ("消息发送失败: " ++ str E result);; ret false
       else _ <- logger ERROR ("HTTP请求失败: " ++ Str.of_Z (fst response));;
            ret false)%M
    (fun e =>
       (_ <- logger ERROR ("发送消息失败: " ++ E.(str_exn) e);; ret false)%M).

(** [DingTalkMessageSender.send_markdown_message] *)
Definition send_markdown_message (title content : string) : M bool :=
  try_except
    (let message := MarkdownMsg title content in
     _ <- emit (Reply message);;
     _send_message message)%M
    (fun e =>
       (_ <- logger ERROR ("发送Markdown消息失败: " ++ E.(str_exn) e);; ret false)%M).

End WithExternals.
End DingTalkIO.

(** ** apps/lock_detector.py: the detector *)

Module LockDetector.
Import Runtime.

Definition lock_classes : gmap Z string :=
  <[0 := "labels"]> (<[1 := "locked"]> (<[2 := "unlocked"]> ∅)).

(** [self.lock_classes.get(top1_class, "unknown")] *)
Definition label_of (top1_class : Z) : string :=
  default "unknown" (lock_classes !! top1_class).

Section WithExternals.
Variable E : Externals.

(** [detect_locks] *)
Definition detect_locks (image : Image) (confidence_threshold : float)
  : M Result.LockDetectionResult :=
  try_except
    (t <- now E;;
     let result := Result.new t in
     _ <- emit (Predict image confidence_threshold);;
     predictions <- lift (E.(predict) image confidence_threshold);;
     result <-
       match predictions with
       | pred :: _ =>
           match pred.(probs) with
           | Some (top1_class, top1_conf) =>
               let lock_status := label_of top1_class in
               let is_locked := String.eqb lock_status "locked" in
               let bbox := Result.bbox_of 0 0 (fst image.(size)) (snd image.(size)) in
               lift (Result.add_lock result lock_status is_locked top1_conf bbox)
           | None => ret result
           end
       | [] => ret result
       end;;
     _ <- logger INFO ("锁分类结果: " ++ Str.of_Z result.(Result.total_locks)
                       ++ " 个锁, " ++ Str.of_Z result.(Result.unlocked_locks)
                       ++ " 个未锁定");;
     ret result)%M
    (fun e =>
       (_ <- logger ERROR ("锁分类失败: " ++ E.(str_exn) e);;
        t <- now E;;
        ret (Result.new t))%M).

(** [visualize_detection] *)
Definition visualize_detection (image : Image)
    (detection_result : Result.LockDetectionResult) : M Image :=
  try_except
    (match detection_result.(Result.lock_details) with
     | lock_detail :: _ =>
         let class_name := lock_detail.(Result.lock_type) in
         let confidence := lock_detail.(Result.confidence) in
         _ <- emit (Draw image class_name confidence);;
         lift (E.(create_classification_visualization) image class_name confidence)
     | [] => ret image
     end)%M
    (fun e =>
       (_ <- logger ERROR ("可视化分类结果失败: " ++ E.(str_exn) e);; ret image)%M).

(** [_calculate_image_hash] *)
Definition _calculate_image_hash (image : Image) : M string :=
  try_except
    (lift (E.(md5_gray) image))
    (fun e =>
       (_ <- logger ERROR ("计算图片哈希失败: " ++ E.(str_exn) e);; ret "")%M).

(** [save_detection_result]: every failure of the two database calls ends in
    the [except] branch, which logs and returns [-1]. *)
Definition save_detection_result (image : Image)
    (detection_result : Result.LockDetectionResult)
    (message_id user_id group_id : pyval) : M Z :=
  try_except
    (image_hash <- _calculate_image_hash image;;
     let result :=
       {| Database.id := None;
          Database.image_url := "";
          Database.image_hash := image_hash;
          Database.detection_time := detection_result.(Result.detection_time);
          Database.locks_detected := detection_result.(Result.total_locks);
          Database.unlocked_locks := detection_result.(Result.unlocked_locks);
          Database.lock_positions := E.(json_dumps) detection_result.(Result.lock_details);
          Database.confidence_score := detection_result.(Result.confidence_score);
          Database.dingtalk_message_id := message_id;
          Database.user_id := user_id;
          Database.group_id := group_id;
          Database.is_safe := detection_result.(Result.is_safe) |} in
     (* the clock reading SQLite takes for [CURRENT_TIMESTAMP] *)
     created <- now E;;
     detection_id <-
       transaction E (fun db => Database.save_detection_result db created result);;
     _ <- transaction E (fun db =>
            rbind (Database.save_lock_details db detection_id
                     detection_result.(Result.lock_details))
                  (fun db' => Ok (db', tt)));;
     _ <- logger INFO ("检测结果已保存到数据库: " ++ Str.of_Z detection_id);;
     ret detection_id)%M
    (fun e =>
       (_ <- logger ERROR ("保存检测结果失败: " ++ E.(str_exn) e);; ret (-1))%M).

End WithExternals.
End LockDetector.

(** ** apps/webhook_service.py *)

Module DingTalkWebhookService.
Import Runtime.
Local Open Scope string_scope.

(** A triple-quoted text, line by line. *)
Definition text_of (lines : list string) : string := String.concat Str.nl lines.

(** The incoming request: its headers, and what [await request.json()]
    gives. *)
Record Request := { headers : gmap string string; json : res pyval }.

(** The dict [handle_callback] returns. *)
Record outcome := { success : bool; message : string }.

Section WithExternals.
Variable E : Externals.

Definition _send_no_image_message (message : DingTalkMessage.t) : M unit :=
  try_except
    (let content := text_of
       [""; "@" ++ str E message.(DingTalkMessage.sender_nick) ++ " 您好！"; "";
        "我注意到您@了我，但是没有在消息中包含图片。"; "";
        "请发送包含锁的图片，我将帮您检测锁的状态。"; "";
        "使用方法：";
        "1. 在群聊中@我";
        "2. 附上需要检测的图片";
        "3. 我会自动检测并返回结果";
        "            "] in
     _ <- DingTalkIO.send_markdown_message E "图片检测提示" content;;
     ret tt)%M
    (fun e => logger ERROR ("发送提示消息失败: " ++ E.(str_exn) e)).

Definition _send_download_error_message (message : DingTalkMessage.t) : M unit :=
  try_except
    (let content := text_of
       [""; "@" ++ str E message.(DingTalkMessage.sender_nick) ++ " 抱歉！"; "";
        "图片下载失败，请检查图片格式或稍后重试。"; "";
        "如果问题持续存在，请联系管理员。";
        "            "] in
     _ <- DingTalkIO.send_markdown_message E "图片下载失败" content;;
     ret tt)%M
    (fun e => logger ERROR ("发送错误消息失败: " ++ E.(str_exn) e)).

Definition _send_error_message (message : DingTalkMessage.t) (error : string) : M unit :=
  try_except
    (let content := text_of
       [""; "@" ++ str E message.(DingTalkMessage.sender_nick) ++ " 抱歉！"; "";
        "处理过程中出现错误：" ++ error; "";
        "请稍后重试或联系管理员。";
        "            "] in
     _ <- DingTalkIO.send_markdown_message E "处理错误" content;;
     ret tt)%M
    (fun e => logger ERROR ("发送错误消息失败: " ++ E.(str_exn) e)).

(** The lines [_build_result_text] adds for the items that are not locked;
    [i] is the index of the first item of [details]. *)
Fixpoint unlocked_lines (i : Z) (details : list Result.lock_detail) : string :=
  match details with
  | [] => ""
  | lock_detail :: rest =>
      (if lock_detail.(Result.is_locked) then ""
       else Str.nl ++ Str.of_Z (i + 1) ++ ". " ++ lock_detail.(Result.lock_type)
            ++ " (置信度: " ++ E.(format_2f) lock_detail.(Result.confidence) ++ ")")
      ++ unlocked_lines (i + 1) rest
  end.

Definition _build_result_text (detection_result : Result.LockDetectionResult) : string :=
  if detection_result.(Result.is_safe)
  then text_of
    [""; "✅ **检测完成 - 一切正常！**"; "";
     "📊 **检测结果:**";
     "- 总计检测到 " ++ Str.of_Z detection_result.(Result.total_locks) ++ " 个锁";
     "- 所有锁都已正常锁定";
     "- 未发现安全隐患"; "";
     "🔒 **安全状态: 正常**";
     "            "]
  else text_of
    [""; "⚠️ **检测完成 - 发现安全隐患！**"; "";
     "📊 **检测结果:**";
     "- 总计检测到 " ++ Str.of_Z detection_result.(Result.total_locks) ++ " 个锁";
     "- " ++ Str.of_Z detection_result.(Result.locked_locks) ++ " 个锁已正常锁定";
     "- " ++ Str.of_Z detection_result.(Result.unlocked_locks) ++ " 个锁未锁定 ❌"; "";
     "🔒 **安全状态: 警告**"; "";
     "**未锁定的锁:**"; ""]
    ++ unlocked_lines 0 detection_result.(Result.lock_details)
    ++ Str.nl ++ Str.nl ++ "**建议:** 请立即检查并锁定所有未锁的锁！".

Definition _send_detection_result (message : DingTalkMessage.t)
    (detection_result : Result.LockDetectionResult) (result_image : Image) : M unit :=
  try_except
    (let result_text := _build_result_text detection_result in
     let image_base64 := E.(image_to_base64) result_image in
     let markdown_content := text_of
       [""; "@" ++ str E message.(DingTalkMessage.sender_nick) ++ " "; "";
        "## 🔒 锁检测结果"; "";
        result_text; "";
        "### 检测详情";
        "- 检测时间: " ++ E.(strftime) detection_result.(Result.detection_time);
        "- 置信度: " ++ E.(format_2f) detection_result.(Result.confidence_score);
        "- 检测图片: ";
        "![检测结果](data:image/jpeg;base64," ++ image_base64 ++ ")"; "";
        "---";
        "*Powered by Lock Detection AI*";
        "            "] in
     sent <- DingTalkIO.send_markdown_message E "锁检测结果" markdown_content;;
     if sent : bool then logger INFO "检测结果发送成功"
     else logger ERROR "检测结果发送失败")%M
    (fun e => logger ERROR ("发送检测结果失败: " ++ E.(str_exn) e)).

(** [v[0]]; of a string, its first byte (see [iterate]). *)
Definition first (v : pyval) : res pyval :=
  match v with
  | PList (x :: _) => Ok x
  | PStr (String c _) => Ok (PStr (String c ""))
  | PList [] | PStr EmptyString => Raise (RuntimeError "index out of range")
  | PDict _ => Raise (KeyError "0")
  | _ => Raise (TypeError "object is not subscriptable")
  end.

Definition _process_message (message : DingTalkMessage.t) : M unit :=
  try_except
    (fresh <-
       (if truthy message.(DingTalkMessage.session_webhook)
        then lift (gt_zero message.(DingTalkMessage.session_webhook_expired_time))
        else ret false);;
     _ <- (if fresh : bool
           then _ <- set_session message.(DingTalkMessage.session_webhook)
                       message.(DingTalkMessage.session_webhook_expired_time);;
                logger INFO "更新session webhook"
           else ret tt);;
     image_urls <- lift (DingTalkCallbackHandler.extract_image_urls message);;
     match image_urls with
     | [] => _send_no_image_message message
     | image_url :: _ =>
         download_code <-
           (if truthy message.(DingTalkMessage.images).(Images.download_code)
            then lift (first message.(DingTalkMessage.images).(Images.download_code))
            else ret (PStr ""));;
         image <- DingTalkIO.download_image E image_url download_code;;
         match image with
         | None => _send_download_error_message message
         | Some image =>
             detection_result <- LockDetector.detect_locks E image 0.5%float;;
             detection_id <- LockDetector.save_detection_result E image detection_result
                               message.(DingTalkMessage.msg_id)
                               message.(DingTalkMessage.sender_id)
                               message.(DingTalkMessage.conversation_title);;
             result_image <- LockDetector.visualize_detection E image detection_result;;
             _send_detection_result message detection_result result_image
         end
     end)%M
    (fun e =>
       (_ <- logger ERROR ("处理消息失败: " ++ E.(str_exn) e);;
        _send_error_message message (E.(str_exn) e))%M).

Definition handle_callback (self : DingTalkCallbackHandler.t) (request : Request)
  : M outcome :=
  try_except
    (let timestamp := default "" (request.(headers) !! "timestamp") in
     let sign := default "" (request.(headers) !! "sign") in
     if negb (DingTalkCallbackHandler.verify_signature self timestamp sign)
     then raise (HTTPException 401 "签名验证失败")
     else
       body <- lift request.(json);;
       _ <- logger INFO ("收到钉钉回调: " ++ E.(json_text) body);;
       message <- DingTalkIO.parse_callback_message E body;;
       mentioned <- lift (DingTalkCallbackHandler.is_mentioned_to_bot self message);;
       if mentioned : bool
       then _ <- _process_message message;;
            ret {| success := true; message := "处理成功" |}
       else _ <- logger INFO "消息未@机器人，忽略处理";;
            ret {| success := true; message := "消息已忽略" |})%M
    (fun e =>
       (_ <- logger ERROR ("处理钉钉回调失败: " ++ E.(str_exn) e);;
        raise (HTTPException 500 (E.(str_exn) e)))%M).

(** [send_manual_detection_result]: the detector is called with its default
    threshold, the record is saved with the default message and group ids. *)
Definition send_manual_detection_result (image : Image) (user_id : pyval) : M bool :=
  try_except
    (detection_result <- LockDetector.detect_locks E image 0.5%float;;
     detection_id <- LockDetector.save_detection_result E image detection_result
                       (PStr "") user_id (PStr "");;
     result_image <- LockDetector.visualize_detection E image detection_result;;
     let result_text := _build_result_text detection_result in
     let image_base64 := E.(image_to_base64) result_image in
     let markdown_content := text_of
       [""; "## 🔒 锁检测结果"; "";
        result_text; "";
        "### 检测详情";
        "- 检测时间: " ++ E.(strftime) detection_result.(Result.detection_time);
        "- 置信度: " ++ E.(format_2f) detection_result.(Result.confidence_score);
        "- 检测图片: ";
        "![检测结果](data:image/jpeg;base64," ++ image_base64 ++ ")"; "";
        "---";
        "*Powered by Lock Detection AI*";
        "            "] in
     DingTalkIO.send_markdown_message E "锁检测结果" markdown_content)%M
    (fun e =>
       (_ <- logger ERROR ("手动发送检测结果失败: " ++ E.(str_exn) e);; ret false)%M).

End WithExternals.
End DingTalkWebhookService.

(** ** main.py: the webhook endpoint *)

Module Main.
Import Runtime.

Inductive content :=
| Result (success : bool) (message : string)
| Detail (detail : string).

Record JSONResponse := { status_code : Z; body : content }.

Section WithExternals.
Variable E : Externals.

(** [dingtalk_webhook]: an [HTTPException] is raised again, any other
    exception becomes a 500 answer. *)
Definition dingtalk_webhook (webhook_service : option DingTalkCallbackHandler.t)
    (request : DingTalkWebhookService.Request) : M JSONResponse :=
  try_except
    (match webhook_service with
     | None => ret {| status_code := 400; body := Result false "钉钉服务未配置" |}
     | Some service =>
         result <- DingTalkWebhookService.handle_callback E service request;;
         ret {| status_code := 200;
                body := Result result.(DingTalkWebhookService.success)
                               result.(DingTalkWebhookService.message) |}
     end)%M
    (fun e =>
       match e with
       | HTTPException _ _ => raise e
       | _ => (_ <- logger ERROR ("钉钉回调处理失败: " ++ E.(str_exn) e);;
               ret {| status_code := 500; body := Result false (E.(str_exn) e) |})%M
       end).

(** What the caller of [POST /api/v1/dingtalk/webhook] receives: FastAPI
    answers a raised [HTTPException] with its status code and detail. *)
Definition respond (webhook_service : option DingTalkCallbackHandler.t)
    (request : DingTalkWebhookService.Request) (w : world) : JSONResponse * world :=
  match dingtalk_webhook webhook_service request w with
  | (Ok response, w') => (response, w')
  | (Raise (HTTPException status detail), w') =>
      ({| status_code := status; body := Detail detail |}, w')
  | (Raise _, w') =>
      ({| status_code := 500; body := Detail "Internal Server Error" |}, w')
  end.

End WithExternals.
End Main.

(** ** main.py and apps/webhook_service.py: the module-level service *)

Module Startup.

(** Two module-level names hold a service: [webhook_service] of
    apps/webhook_service.py, which [init_webhook_service] rebinds through its
    [global] statement, and [webhook_service] of main.py, which
    [from apps.webhook_service import webhook_service] binds when main.py is
    loaded and which no statement of main.py assigns. *)
Record names := {
  service_module : option DingTalkCallbackHandler.t;
  main_module : option DingTalkCallbackHandler.t
}.

(** apps/webhook_service.py ends with [webhook_service = None]; the import
    statement of main.py then copies that binding. *)
Definition loaded : names :=
  let webhook_service := None in
  {| service_module := webhook_service; main_module := webhook_service |}.

(** [init_webhook_service] *)
Definition init_webhook_service (g : names) (app_key app_secret : string) : names :=
  {| service_module :=
       Some {| DingTalkCallbackHandler.app_key := app_key;
               DingTalkCallbackHandler.app_secret := app_secret |};
     main_module := g.(main_module) |}.

(** [startup_event], with the two environment variables it reads. *)
Definition startup_event (g : names) (app_key app_secret : string) : names :=
  if negb (String.eqb app_key "") && negb (String.eqb app_secret "")
  then init_webhook_service g app_key app_secret
  else g.

(** [configure_dingtalk] *)
Definition configure_dingtalk (g : names) (config : string * string) : names :=
  init_webhook_service g (fst config) (snd config).

(** The names after start-up and a series of configuration requests. *)
Definition configured (app_key app_secret : string) (configs : list (string * string))
  : names :=
  fold_left configure_dingtalk configs (startup_event loaded app_key app_secret).

End Startup.

(** ** Concrete surroundings, used to run the model *)

Module Scenario.
Import Runtime.

(** Surroundings in which the network is down, the classifier answers
    [preds] and the database file fails as [fault] says. *)
Definition externals (preds : res (list prediction)) (fault : nat -> bool) : Externals :=
  {| clock := fun k => 1700000000 + Z.of_nat k;
     repr := fun _ => "<value>";
     str_exn := fun e =>
       match e with
       | KeyError k => k
       | AttributeError m | TypeError m | OverflowError m | SqliteError m
       | RuntimeError m => m
       | HTTPException s d => (Str.of_Z s ++ ": " ++ d)%string
       end;
     json_text := fun _ => "{}";
     json_dumps := fun _ => "[]";
     strftime := fun t => Str.of_Z t;
     format_2f := fun _ => "0.00";
     http_get := fun _ => Ok (200, [255; 216]);
     http_post := fun _ _ => Raise (RuntimeError "connection refused");
     image_open := fun data => Ok {| size := (640, 480); pixels := data |};
     md5_gray := fun _ => Ok "d41d8cd98f00b204e9800998ecf8427e";
     create_classification_visualization := fun image _ _ => Ok image;
     image_to_base64 := fun _ => "";
     predict := fun _ _ => preds;
     db_fault := fault |}.

Definition image : Image := {| size := (640, 480); pixels := [] |}.

(** The handler the tests configure, and a request without signature
    headers. *)
Definition service : DingTalkCallbackHandler.t :=
  {| DingTalkCallbackHandler.app_key := "test_key";
     DingTalkCallbackHandler.app_secret := "test_secret" |}.

Definition unsigned_request : DingTalkWebhookService.Request :=
  {| DingTalkWebhookService.headers := ∅;
     DingTalkWebhookService.json := Ok (PDict ∅) |}.

(** A message that mentions the bot and carries a reply channel, without and
    with an image. *)
Definition text_message : DingTalkMessage.t :=
  {| DingTalkMessage.chatbot_user_id := PStr "test_bot";
     DingTalkMessage.conversation_type := PStr "1";
     DingTalkMessage.msg_id := PStr "test_msg";
     DingTalkMessage.create_at := PStr "";
     DingTalkMessage.conversation_title := PStr "";
     DingTalkMessage.sender_id := PStr "user1";
     DingTalkMessage.sender_nick := PStr "nick";
     DingTalkMessage.session_webhook := PStr "https://oapi.example/robot/send";
     DingTalkMessage.session_webhook_expired_time := PInt 1700003600000;
     DingTalkMessage.content := Content.new;
     DingTalkMessage.images := Images.new;
     DingTalkMessage.msg_type := PStr "text";
     DingTalkMessage.at_users := AtUsers.new;
     DingTalkMessage.text := {| Text.content := PStr "@bot" |} |}.

Definition image_message : DingTalkMessage.t :=
  {| DingTalkMessage.chatbot_user_id := PStr "test_bot";
     DingTalkMessage.conversation_type := PStr "1";
     DingTalkMessage.msg_id := PStr "test_msg";
     DingTalkMessage.create_at := PStr "";
     DingTalkMessage.conversation_title := PStr "";
     DingTalkMessage.sender_id := PStr "user1";
     DingTalkMessage.sender_nick := PStr "nick";
     DingTalkMessage.session_webhook := PStr "https://oapi.example/robot/send";
     DingTalkMessage.session_webhook_expired_time := PInt 1700003600000;
     DingTalkMessage.content := Content.new;
     DingTalkMessage.images :=
       {| Images.download_code := PList [PStr "test_code"];
          Images.image_url := PList [PStr "http://example.com/test.jpg"];
          Images.image_size := PList [] |};
     DingTalkMessage.msg_type := PStr "picture";
     DingTalkMessage.at_users := AtUsers.new;
     DingTalkMessage.text := {| Text.content := PStr "@bot" |} |}.

(** A text message that mentions the bot and carries a reply channel whose
    expiry is a text, not a number. *)
Definition text_expiry_message : DingTalkMessage.t :=
  {| DingTalkMessage.chatbot_user_id := PStr "test_bot";
     DingTalkMessage.conversation_type := PStr "1";
     DingTalkMessage.msg_id := PStr "test_msg";
     DingTalkMessage.create_at := PStr "";
     DingTalkMessage.conversation_title := PStr "";
     DingTalkMessage.sender_id := PStr "user1";
     DingTalkMessage.sender_nick := PStr "nick";
     DingTalkMessage.session_webhook := PStr "https://oapi.example/robot/send";
     DingTalkMessage.session_webhook_expired_time := PStr "soon";
     DingTalkMessage.content := Content.new;
     DingTalkMessage.images := Images.new;
     DingTalkMessage.msg_type := PStr "text";
     DingTalkMessage.at_users := AtUsers.new;
     DingTalkMessage.text := {| Text.content := PStr "@bot" |} |}.

(** A record as the tests of the store build it. *)
Definition record (url h : string) (locks unlocked : Z) (safe : bool)
  : Database.DetectionResult :=
  {| Database.id := None; Database.image_url := url; Database.image_hash := h;
     Database.detection_time := 1700000000;
     Database.locks_detected := locks; Database.unlocked_locks := unlocked;
     Database.lock_positions := ""; Database.confidence_score := 0.5%float;
     Database.dingtalk_message_id := PStr ""; Database.user_id := PStr "";
     Database.group_id := PStr ""; Database.is_safe := safe |}.

(** A store with three detections, one of them unsafe. *)
Definition three_rows : Database.t :=
  {| Database.detection_results :=
       [ {| Database.row_id := 1; Database.row_values := record "a.jpg" "h1" 1 0 true;
            Database.created_at := 1700000001 |};
         {| Database.row_id := 2; Database.row_values := record "b.jpg" "h2" 1 1 false;
            Database.created_at := 1700000002 |};
         {| Database.row_id := 3; Database.row_values := record "c.jpg" "h3" 1 0 true;
            Database.created_at := 1700000003 |} ];
     Database.detection_results_seq := 3;
     Database.lock_details := []; Database.lock_details_seq := 0 |}.

(** The service right after start-up, with no reply channel configured. *)
Definition start : world :=
  {| db := Database.empty; webhook_url := PStr "";
     session_webhook := PStr ""; session_webhook_expired_time := PInt 0;
     trace := []; clock_reads := 0; db_calls := 0 |}.

End Scenario.

(** ** Predicates used to state what the code keeps *)

Module Invariants.

(** The first coordinate a box lacks, in the order [add_lock] reads them. *)
Definition first_missing (bbox : gmap string Z) : option string :=
  List.find (fun k => bool_decide (bbox !! k = None)) ["xmin"; "ymin"; "xmax"; "ymax"].

(** The number of entries of a detail list that are locked, or not. *)
Definition count_locked (lk : bool) (details : list Result.lock_detail) : Z :=
  Z.of_nat (length (List.filter (fun d => Bool.eqb d.(Result.is_locked) lk) details)).

(** The fingerprints and the keys of the detection table. *)
Definition fingerprints (db : Database.t) : list string :=
  map (fun r => r.(Database.row_values).(Database.image_hash)) db.(Database.detection_results).

Definition keys (db : Database.t) : list Z :=
  map Database.row_id db.(Database.detection_results).

(** A store as SQLite keeps it: no fingerprint and no key twice, every key
    positive and at most the counter of the table, in both tables. *)
Definition well_formed (db : Database.t) : Prop :=
  NoDup (fingerprints db) /\
  NoDup (keys db) /\
  Forall (fun k => 0 < k <= db.(Database.detection_results_seq)) (keys db) /\
  NoDup (map Database.ld_id db.(Database.lock_details)) /\
  Forall (fun k => 0 < k <= db.(Database.lock_details_seq))
         (map Database.ld_id db.(Database.lock_details)).

(** The stores the two writing methods of [DatabaseManager] can produce from
    a new database file. *)
Inductive written : Database.t -> Prop :=
| written_empty : written Database.empty
| written_detection db now result db' key :
    written db ->
    Database.save_detection_result db now result = Ok (db', key) ->
    written db'
| written_details db detection_id details db' :
    written db ->
    Database.save_lock_details db detection_id details = Ok db' ->
    written db'.

(** The row of [lock_details] that stores a detail under a key. *)
Definition lock_row_of (key detection_id : Z) (detail : Result.lock_detail)
  : Database.lock_row :=
  {| Database.ld_id := key; Database.detection_id := detection_id;
     Database.lock_type := detail.(Result.lock_type);
     Database.is_locked := detail.(Result.is_locked);
     Database.confidence := detail.(Result.confidence);
     Database.position_x := detail.(Result.position_x);
     Database.position_y := detail.(Result.position_y);
     Database.width := detail.(Result.width);
     Database.height := detail.(Result.height) |}.

(** Details whose four numbers fit the 64-bit integers of SQLite. *)
Definition detail_fits (d : Result.lock_detail) : bool :=
  Database.int64 d.(Result.position_x) && Database.int64 d.(Result.position_y)
  && Database.int64 d.(Result.width) && Database.int64 d.(Result.height).

(** The posts of a trace: where to, and what. *)
Definition posts (tr : list Runtime.event) : list (pyval * Runtime.outmsg) :=
  omap (fun e => match e with Runtime.Post url m => Some (url, m) | _ => None end) tr.

(** The titles of the four replies of the webhook service. *)
Definition titles : list string :=
  ["图片检测提示"; "图片下载失败"; "处理错误"; "锁检测结果"].

(** Surroundings in which the image host cannot be reached. *)
Definition image_host_down (E : Runtime.Externals) : Runtime.Externals :=
  {| Runtime.clock := E.(Runtime.clock); Runtime.repr := E.(Runtime.repr);
     Runtime.str_exn := E.(Runtime.str_exn);
     Runtime.json_text := E.(Runtime.json_text);
     Runtime.json_dumps := E.(Runtime.json_dumps);
     Runtime.strftime := E.(Runtime.strftime); Runtime.format_2f := E.(Runtime.format_2f);
     Runtime.http_get := fun _ => Raise (RuntimeError "connection refused");
     Runtime.http_post := E.(Runtime.http_post);
     Runtime.image_open := E.(Runtime.image_open); Runtime.md5_gray := E.(Runtime.md5_gray);
     Runtime.create_classification_visualization :=
       E.(Runtime.create_classification_visualization);
     Runtime.image_to_base64 := E.(Runtime.image_to_base64);
     Runtime.predict := E.(Runtime.predict);
     Runtime.db_fault := E.(Runtime.db_fault) |}.

End Invariants.

(** * Properties *)

(** ** The aggregated result *)

Lemma item_bbox_of (a b c d : Z) :
  Result.item (Result.bbox_of a b c d) "xmin" = Ok a /\
  Result.item (Result.bbox_of a b c d) "ymin" = Ok b /\
  Result.item (Result.bbox_of a b c d) "xmax" = Ok c /\
  Result.item (Result.bbox_of a b c d) "ymax" = Ok d.
Proof.
  unfold Result.item, Result.bbox_of. repeat split; by simplify_map_eq.
Qed.

(** What a successful [add_lock] has done to the object. *)
Lemma add_lock_ok r r' ty lk c bb :
  Result.add_lock r ty lk c bb = Ok r' ->
  exists d,
    Result.lock_type d = ty /\ Result.is_locked d = lk /\ Result.confidence d = c /\
    Result.bbox d = bb /\
    Result.item bb "xmin" = Ok (Result.position_x d) /\
    Result.item bb "ymin" = Ok (Result.position_y d) /\
    (exists xmax, Result.item bb "xmax" = Ok xmax /\
                  Result.width d = xmax - Result.position_x d) /\
    (exists ymax, Result.item bb "ymax" = Ok ymax /\
                  Result.height d = ymax - Result.position_y d) /\
    Result.lock_details r' = Result.lock_details r ++ [d] /\
    Result.total_locks r' = Result.total_locks r + 1 /\
    Result.locked_locks r' = (if lk then Result.locked_locks r + 1 else Result.locked_locks r) /\
    Result.unlocked_locks r' = (if lk then Result.unlocked_locks r else Result.unlocked_locks r + 1) /\
    Result.is_safe r' = (if lk then Result.is_safe r else false) /\
    Result.detection_time r' = Result.detection_time r.
Proof.
  unfold Result.add_lock, rbind.
  destruct (Result.item bb "xmin") as [xmin|] eqn:Hx; [|discriminate].
  destruct (Result.item bb "ymin") as [ymin|] eqn:Hy; [|discriminate].
  destruct (Result.item bb "xmax") as [xmax|] eqn:Hxm; [|discriminate].
  destruct (Result.item bb "ymax") as [ymax|] eqn:Hym; [|discriminate].
  intros [= <-]. eexists; cbn.
  repeat split; try reflexivity; eauto.
Qed.

Lemma add_lock_counts r r' ty lk c bb :
  Result.counts_ok r -> Result.add_lock r ty lk c bb = Ok r' -> Result.counts_ok r'.
Proof.
  intros (Hge & Hsum & Hsafe) Hadd.
  apply add_lock_ok in Hadd as (d & _ & _ & _ & _ & _ & _ & _ & _ & _ & Ht & Hl & Hu & Hs & _).
  unfold Result.counts_ok. rewrite Ht, Hl, Hu, Hs.
  destruct lk.
  - repeat split; try lia; apply Hsafe.
  - repeat split; try lia; intros; (discriminate || lia).
Qed.

Lemma reachable_counts now r : Result.reachable now r -> Result.counts_ok r.
Proof.
  induction 1 as [|r r' ty lk c bb _ IH Hadd].
  - unfold Result.counts_ok; cbn. repeat split; lia.
  - eapply add_lock_counts; eassumption.
Qed.

(** C3: after any finite sequence of [add_lock] calls on a fresh result,
    [locked_locks + unlocked_locks = total_locks], and [is_safe] holds exactly
    when [unlocked_locks = 0]. *)
Theorem add_lock_sequence_invariant now r :
  Result.reachable now r ->
  Result.locked_locks r + Result.unlocked_locks r = Result.total_locks r /\
  (Result.is_safe r = true <-> Result.unlocked_locks r = 0).
Proof.
  intros H. apply reachable_counts in H as (_ & Hsum & Hsafe). by split.
Qed.

(** The invariant on the result of the first call of the unit test. *)
Lemma add_lock_sequence_invariant_witness :
  exists r,
    Result.add_lock (Result.new 0) "padlock" false 0.5%float
      (Result.bbox_of 100 100 200 200) = Ok r /\
    Result.locked_locks r + Result.unlocked_locks r = Result.total_locks r /\
    (Result.is_safe r = true <-> Result.unlocked_locks r = 0).
Proof.
  eexists. split; [reflexivity|].
  apply (add_lock_sequence_invariant 0).
  apply (Result.reach_add 0 (Result.new 0) _ "padlock" false 0.5%float
           (Result.bbox_of 100 100 200 200)); [apply Result.reach_new | reflexivity].
Defined.

(** ** The classification step *)

Section Detector.
Import Runtime.
Variable E : Externals.

(** [detect_locks] never raises; its result is either the fresh result or
    the fresh result with one item added for the first prediction. *)
Lemma detect_locks_cases image th w :
  exists r w',
    LockDetector.detect_locks E image th w = (Ok r, w') /\
    db w' = db w /\ db_calls w' = db_calls w /\
    ((exists t, r = Result.new t) /\
       (forall pred rest top1 conf,
          E.(predict) image th = Ok (pred :: rest) -> probs pred <> Some (top1, conf))
     \/
     (exists t pred rest top1 conf,
        E.(predict) image th = Ok (pred :: rest) /\ probs pred = Some (top1, conf) /\
        Result.add_lock (Result.new t) (LockDetector.label_of top1)
          (String.eqb (LockDetector.label_of top1) "locked") conf
          (Result.bbox_of 0 0 (fst image.(size)) (snd image.(size))) = Ok r)).
Proof.
  unfold LockDetector.detect_locks, try_except, bind, now, emit, lift, logger, emit, ret.
  cbn.
  destruct (E.(predict) image th) as [[|pred rest]|e] eqn:Hp; cbn.
  - do 2 eexists; repeat split; try reflexivity.
    left; split; [eauto | intros; discriminate].
  - destruct (probs pred) as [[top1 conf]|] eqn:Hprobs; cbn.
    + destruct (Result.add_lock _ _ _ _ _) as [r|e] eqn:Hadd; cbn.
      * do 2 eexists; repeat split; try reflexivity.
        right. exists (clock E (clock_reads w)), pred, rest, top1, conf. by repeat split.
      * exfalso. revert Hadd. unfold Result.add_lock, rbind.
        destruct (item_bbox_of 0 0 (fst (size image)) (snd (size image)))
          as (-> & -> & -> & ->). discriminate.
    + do 2 eexists; repeat split; try reflexivity.
      left; split; [eauto | intros ? ? ? ? [= -> ->]; congruence].
  - do 2 eexists; repeat split; try reflexivity.
    left; split; [eauto | intros; discriminate].
Qed.

(** C10: the classification step never raises; its result holds at most one
    item, that of the top-1 class of the first prediction; the item's box is
    the whole image ([x = 0], [y = 0], width and height those of the image);
    and when the classifier raises the result is the empty one. *)
Theorem detect_locks_single_full_frame image th w :
  exists r w',
    LockDetector.detect_locks E image th w = (Ok r, w') /\
    (length (Result.lock_details r) <= 1)%nat /\
    Result.total_locks r = Z.of_nat (length (Result.lock_details r)) /\
    (forall d, d ∈ Result.lock_details r ->
       Result.position_x d = 0 /\ Result.position_y d = 0 /\
       Result.width d = fst image.(size) /\ Result.height d = snd image.(size) /\
       exists pred rest top1 conf,
         E.(predict) image th = Ok (pred :: rest) /\ probs pred = Some (top1, conf) /\
         Result.lock_type d = LockDetector.label_of top1 /\ Result.confidence d = conf) /\
    (forall e, E.(predict) image th = Raise e ->
       Result.total_locks r = 0 /\ Result.is_safe r = true /\ Result.lock_details r = []).
Proof.
  destruct (detect_locks_cases image th w)
    as (r & w' & Hrun & _ & _ & [[[t ->] _] | (t & pred & rest & top1 & conf & Hp & Hprobs & Hadd)]).
  - exists (Result.new t), w'. cbn. split_and!; try done; try lia.
    intros d Hd. by apply elem_of_nil in Hd.
  - exists r, w'.
    apply add_lock_ok in Hadd
      as (d & Hty & _ & Hc & _ & Hx & Hy & (xmax & Hxm & Hw) & (ymax & Hym & Hh) & Hds & Ht & _).
    destruct (item_bbox_of 0 0 (fst (size image)) (snd (size image))) as (Ex & Ey & Exm & Eym).
    rewrite Ex in Hx. rewrite Ey in Hy. rewrite Exm in Hxm. rewrite Eym in Hym.
    injection Hx as Hx. injection Hy as Hy. injection Hxm as Hxm. injection Hym as Hym.
    rewrite Hds, Ht. cbn. split_and!; try done; try lia.
    + intros d' Hd'. apply list_elem_of_singleton in Hd' as ->.
      split_and!; try lia. exists pred, rest, top1, conf. by split_and!.
    + intros e He. congruence.
Qed.

(** C4, as amended: the item of the first prediction is counted in the total
    and listed; it is marked locked exactly when its label is "locked"; with
    any other label, "unlocked" or not, it adds to the unlocked count and
    makes the outcome unsafe. *)
Theorem detect_locks_other_label_unlocked image th w pred rest top1 conf :
  E.(predict) image th = Ok (pred :: rest) ->
  probs pred = Some (top1, conf) ->
  exists r w' d,
    LockDetector.detect_locks E image th w = (Ok r, w') /\
    Result.lock_details r = [d] /\ Result.total_locks r = 1 /\
    Result.lock_type d = LockDetector.label_of top1 /\
    (Result.is_locked d = true <-> LockDetector.label_of top1 = "locked") /\
    (LockDetector.label_of top1 <> "locked" ->
       Result.is_locked d = false /\ Result.locked_locks r = 0 /\
       Result.unlocked_locks r = 1 /\ Result.is_safe r = false).
Proof.
  intros Hp Hprobs.
  destruct (detect_locks_cases image th w)
    as (r & w' & Hrun & _ & _ & [[_ Hno] | (t & pred' & rest' & top1' & conf' & Hp' & Hprobs' & Hadd)]).
  - exfalso. eapply Hno; eassumption.
  - rewrite Hp in Hp'. injection Hp' as <- <-.
    rewrite Hprobs in Hprobs'. injection Hprobs' as <- <-.
    apply add_lock_ok in Hadd
      as (d & Hty & Hlk & _ & _ & _ & _ & _ & _ & Hds & Ht & Hl & Hu & Hs & _).
    exists r, w', d. rewrite Hds, Ht, Hl, Hu, Hs, Hty, Hlk. cbn.
    split_and!; try done.
    + apply String.eqb_eq.
    + intros Hne. apply String.eqb_neq in Hne. by rewrite Hne.
Qed.

End Detector.

(** Class 0 ("labels") on a 640 x 480 image. *)
Lemma detect_locks_other_label_unlocked_witness :
  let E := Scenario.externals (Ok [{| Runtime.probs := Some (0, 0.9375%float) |}])
             (fun _ => false) in
  exists r w' d,
    LockDetector.detect_locks E Scenario.image 0.5%float Scenario.start = (Ok r, w') /\
    Result.lock_details r = [d] /\ Result.total_locks r = 1 /\
    Result.lock_type d = LockDetector.label_of 0 /\
    (Result.is_locked d = true <-> LockDetector.label_of 0 = "locked") /\
    (LockDetector.label_of 0 <> "locked" ->
       Result.is_locked d = false /\ Result.locked_locks r = 0 /\
       Result.unlocked_locks r = 1 /\ Result.is_safe r = false).
Proof.
  intros E.
  apply (detect_locks_other_label_unlocked E Scenario.image 0.5%float Scenario.start
           {| Runtime.probs := Some (0, 0.9375%float) |} [] 0 0.9375%float);
    reflexivity.
Defined.

(** C4, as first stated, fails: class 0 is labelled "labels", neither
    "locked" nor "unlocked", and the item is counted as unlocked. *)
Lemma detect_locks_other_label_not_excluded :
  ~ (forall (E : Runtime.Externals) image th w pred rest top1 conf r w',
       E.(Runtime.predict) image th = Ok (pred :: rest) ->
       Runtime.probs pred = Some (top1, conf) ->
       LockDetector.label_of top1 <> "locked" ->
       LockDetector.label_of top1 <> "unlocked" ->
       LockDetector.detect_locks E image th w = (Ok r, w') ->
       Result.total_locks r = 1 /\ length (Result.lock_details r) = 1%nat /\
       Result.locked_locks r = 0 /\ Result.unlocked_locks r = 0).
Proof.
  intros claim.
  pose (E := Scenario.externals (Ok [{| Runtime.probs := Some (0, 0.9375%float) |}])
               (fun _ => false)).
  destruct (LockDetector.detect_locks E Scenario.image 0.5%float Scenario.start)
    as [[r|e] w'] eqn:Hrun.
  - destruct (claim E Scenario.image 0.5%float Scenario.start
                {| Runtime.probs := Some (0, 0.9375%float) |} [] 0 0.9375%float
                r w' eq_refl eq_refl ltac:(by vm_compute) ltac:(by vm_compute) Hrun)
      as (_ & _ & _ & H).
    vm_compute in Hrun. injection Hrun as <- _. vm_compute in H. discriminate.
  - vm_compute in Hrun. discriminate.
Qed.

(** ** The store *)

Section Store.
Import Database.

Lemma filter_none {A} (P : A -> Prop) `{forall x, Decision (P x)} (l : list A) :
  (forall x, x ∈ l -> ~ P x) -> filter P l = [].
Proof.
  induction l as [|x l IH]; intros Hno; [done|].
  rewrite filter_cons_False by (apply Hno; left).
  apply IH. intros y Hy. apply Hno. by right.
Qed.

Lemma key_le_largest (keys : list Z) (seq k : Z) :
  k ∈ keys -> k <= largest_key keys seq.
Proof.
  unfold largest_key. induction keys as [|k' keys IH]; intros Hk.
  - by apply elem_of_nil in Hk.
  - apply elem_of_cons in Hk as [->|Hk]; cbn; [lia|]. specialize (IH Hk). lia.
Qed.

Lemma row_id_le_largest (rows : list detection_row) (seq : Z) (r : detection_row) :
  r ∈ rows -> row_id r <= largest_key (map row_id rows) seq.
Proof. intros Hr. apply key_le_largest. by apply list_elem_of_fmap_2. Qed.

Lemma largest_key_snoc (keys : list Z) (seq k : Z) :
  largest_key keys seq < k -> largest_key (keys ++ [k]) k = k.
Proof.
  unfold largest_key. intros Hlt.
  assert (fold_right Z.max 0 (keys ++ [k]) <= k); [|lia].
  induction keys as [|k' keys IH]; cbn in *; lia.
Qed.

Lemma largest_key_filter (P : detection_row -> Prop) `{forall x, Decision (P x)}
    (rows : list detection_row) (seq : Z) :
  largest_key (map row_id (filter P rows)) seq <= largest_key (map row_id rows) seq.
Proof.
  unfold largest_key.
  assert (fold_right Z.max 0 (map row_id (filter P rows))
          <= fold_right Z.max 0 (map row_id rows)); [|lia].
  induction rows as [|r rows IH]; [done|].
  rewrite filter_cons. case_decide; cbn; lia.
Qed.

(** A record that SQLite accepts is saved under the next key whenever the
    key space is not exhausted. *)
Lemma save_detection_result_ok db now result :
  storable result = true ->
  largest_key (map row_id db.(detection_results)) db.(detection_results_seq) < max_rowid ->
  save_detection_result db now result =
    Ok ({| detection_results :=
             filter (fun r => r.(row_values).(image_hash) ≠ result.(image_hash))
                    db.(detection_results)
             ++ [{| row_id := largest_key (map row_id db.(detection_results))
                                db.(detection_results_seq) + 1;
                    row_values := result; created_at := now |}];
           detection_results_seq :=
             largest_key (map row_id db.(detection_results)) db.(detection_results_seq) + 1;
           lock_details := db.(lock_details);
           lock_details_seq := db.(lock_details_seq) |},
        largest_key (map row_id db.(detection_results)) db.(detection_results_seq) + 1).
Proof.
  unfold storable, bindable, save_detection_result, bind_int, next_rowid, rbind.
  intros Hst Hroom.
  apply andb_prop in Hst as [Hst Hg]. apply andb_prop in Hst as [Hst Hu].
  apply andb_prop in Hst as [Hst Hm]. apply andb_prop in Hst as [Hl Hul].
  rewrite Hl, Hul.
  destruct (bind (dingtalk_message_id result)); [|done].
  destruct (bind (user_id result)); [|done].
  destruct (bind (group_id result)); [|done].
  destruct (Z.leb_spec max_rowid
              (largest_key (map row_id (detection_results db)) (detection_results_seq db)));
    [lia | done].
Qed.


End Store.



(** ** Statistics *)

Lemma sum_int64_fits (xs : list Z) (acc : Z) :
  0 <= acc ->
  forallb (Z.leb 0) xs = true ->
  acc + fold_right Z.add 0 xs <= Database.max_rowid ->
  Database.sum_int64 acc xs = Ok (acc + fold_right Z.add 0 xs).
Proof.
  revert acc. induction xs as [|x xs IH]; intros acc Hacc Hpos Hfit; cbn in *.
  - f_equal. lia.
  - apply andb_prop in Hpos as [Hx Hpos]. apply Z.leb_le in Hx.
    assert (0 <= fold_right Z.add 0 xs).
    { clear -Hpos. induction xs as [|y ys IHy]; cbn in *; [lia|].
      apply andb_prop in Hpos as [Hy Hpos]. apply Z.leb_le in Hy.
      specialize (IHy Hpos). lia. }
    unfold Database.int64, Database.max_rowid in *.
    replace ((- 2 ^ 63 <=? acc + x) && (acc + x <=? 2 ^ 63 - 1)) with true
      by (symmetry; apply andb_true_intro; split; apply Z.leb_le; lia).
    rewrite IH by (try done; lia). f_equal. lia.
Qed.

Lemma count_unsafe_rows (rows : list Database.detection_row) :
  length (filter (fun r => Database.is_safe r = false) (map Database.row_values rows))
  = length (filter (fun r => Database.is_safe (Database.row_values r) = false) rows).
Proof.
  induction rows as [|r rows IH]; [done|].
  rewrite map_cons, !filter_cons. case_decide; cbn; by rewrite IH.
Qed.

(** C8: [get_statistics] counts the rows that are in the store when it is
    called; its [safety_rate] is 100 when there is no detection, and
    [(total_detections - unsafe_detections) / total_detections * 100]
    otherwise. *)
Theorem get_statistics_safety_rate db today :
  Database.counts_fit db = true ->
  exists s,
    Database.get_statistics db today = Ok s /\
    Database.total_detections s = Z.of_nat (length (Database.detection_results db)) /\
    Database.unsafe_detections s =
      Z.of_nat (length (filter (fun r => Database.is_safe (Database.row_values r) = false)
                               (Database.detection_results db))) /\
    (Database.total_detections s = 0 -> Database.safety_rate s = PInt 100) /\
    (Database.total_detections s <> 0 ->
       Database.safety_rate s =
         PFloat (PrimFloat.mul
                   (Database.truediv
                      (Database.total_detections s - Database.unsafe_detections s)
                      (Database.total_detections s))
                   100%float)).
Proof.
  unfold Database.counts_fit, Database.get_statistics, rbind. intros Hfit.
  apply andb_prop in Hfit as [Hfit Hu]. apply andb_prop in Hfit as [Hfit Hl].
  apply andb_prop in Hfit as [Hpl Hpu].
  apply Z.leb_le in Hu, Hl.
  rewrite (sum_int64_fits _ 0) by (try done; lia).
  rewrite (sum_int64_fits _ 0) by (try done; lia).
  eexists. split; [reflexivity|]. cbn.
  rewrite length_map.
  split_and!.
  - done.
  - f_equal. apply count_unsafe_rows.
  - by intros ->.
  - intros Hne. destruct (Z.ltb_spec 0 (Z.of_nat (length (Database.detection_results db))));
      [done | lia].
Qed.

(** Three detections, one of them unsafe. *)
Lemma get_statistics_safety_rate_witness :
  exists s,
    Database.get_statistics Scenario.three_rows 19675 = Ok s /\
    Database.total_detections s = 3 /\
    Database.unsafe_detections s = 1 /\
    (Database.total_detections s = 0 -> Database.safety_rate s = PInt 100) /\
    (Database.total_detections s <> 0 ->
       Database.safety_rate s =
         PFloat (PrimFloat.mul
                   (Database.truediv
                      (Database.total_detections s - Database.unsafe_detections s)
                      (Database.total_detections s))
                   100%float)).
Proof.
  exact (get_statistics_safety_rate Scenario.three_rows 19675 eq_refl).
Defined.

(** ** Parsing the payload *)

Ltac absent_key :=
  rewrite (bool_decide_false (is_Some None)) by (intros [? ?]; done).

Ltac nested_key Hnested key :=
  let v := fresh "v" in
  let Hk := fresh "Hk" in
  let d' := fresh "d" in
  destruct (_ !! key) as [v|] eqn:Hk;
  [ destruct (Hnested key v ltac:(set_solver) Hk) as [d' ->];
    rewrite bool_decide_true by eauto; cbn
  | absent_key ].

(** A payload without the [content] key, whose nested objects are dicts when
    they are present, is parsed, and every key it lacks gets its default. *)
Lemma from_dict_defaults (d : gmap string pyval) :
  d !! "content" = None ->
  (forall k v, k ∈ ["images"; "atUsers"; "text"] -> d !! k = Some v ->
               exists d', v = PDict d') ->
  exists msg,
    DingTalkMessage.from_dict (PDict d) = Ok msg /\
    (d !! "chatbotUserId" = None -> DingTalkMessage.chatbot_user_id msg = PStr "") /\
    (d !! "conversationType" = None -> DingTalkMessage.conversation_type msg = PStr "") /\
    (d !! "msgId" = None -> DingTalkMessage.msg_id msg = PStr "") /\
    (d !! "createAt" = None -> DingTalkMessage.create_at msg = PStr "") /\
    (d !! "conversationTitle" = None -> DingTalkMessage.conversation_title msg = PStr "") /\
    (d !! "senderId" = None -> DingTalkMessage.sender_id msg = PStr "") /\
    (d !! "senderNick" = None -> DingTalkMessage.sender_nick msg = PStr "") /\
    (d !! "sessionWebhook" = None -> DingTalkMessage.session_webhook msg = PStr "") /\
    (d !! "sessionWebhookExpiredTime" = None ->
       DingTalkMessage.session_webhook_expired_time msg = PInt 0) /\
    (d !! "msgType" = None -> DingTalkMessage.msg_type msg = PStr "") /\
    DingTalkMessage.content msg = Content.new /\
    (d !! "images" = None -> DingTalkMessage.images msg = Images.new) /\
    (d !! "atUsers" = None -> DingTalkMessage.at_users msg = AtUsers.new) /\
    (d !! "text" = None -> DingTalkMessage.text msg = Text.new) /\
    (forall di, d !! "images" = Some (PDict di) -> di !! "imageUrl" = None ->
                Images.image_url (DingTalkMessage.images msg) = PList []) /\
    (forall da, d !! "atUsers" = Some (PDict da) -> da !! "dingtalkId" = None ->
                AtUsers.dingtalk_id (DingTalkMessage.at_users msg) = PList []) /\
    (forall dt, d !! "text" = Some (PDict dt) -> dt !! "content" = None ->
                Text.content (DingTalkMessage.text msg) = PStr "").
Proof.
  intros Hc Hnested.
  unfold DingTalkMessage.from_dict, DingTalkMessage.nested, DingTalkMessage.has_key,
    DingTalkMessage.item, Py.get, rbind.
  rewrite Hc. absent_key.
  nested_key Hnested "images"; nested_key Hnested "atUsers"; nested_key Hnested "text";
    (eexists; split; [reflexivity|]); cbn;
    split_and!; try (by intros ->); try done;
    intros ? [= <-] Hmissing; by rewrite Hmissing.
Qed.

(** C7 on the code: a payload that carries the [content] key is not parsed,
    whatever else it holds or lacks; [from_dict] raises [AttributeError]. *)
Theorem from_dict_content_raises (d : gmap string pyval) :
  is_Some (d !! "content") ->
  DingTalkMessage.from_dict (PDict d) = Raise (AttributeError DingTalkMessage.no_from_dict).
Proof.
  intros Hc.
  unfold DingTalkMessage.from_dict, DingTalkMessage.has_key, Py.get, rbind.
  by rewrite bool_decide_true.
Qed.

(** The payload that holds nothing but [content]. *)
Lemma from_dict_content_raises_witness :
  DingTalkMessage.from_dict
    (PDict (<["content" := PDict (<["content" := PStr "hi"]> ∅)]> ∅))
  = Raise (AttributeError DingTalkMessage.no_from_dict).
Proof.
  apply (from_dict_content_raises (<["content" := PDict (<["content" := PStr "hi"]> ∅)]> ∅)).
  rewrite lookup_insert_eq. eauto.
Defined.

(** ** The webhook service *)

Section Service.
Import Runtime.
Variable E : Externals.

Ltac run :=
  unfold try_except, bind, ret, raise, lift, logger, emit, get_webhook_url, now,
    set_session; cbn.

Ltac leaf :=
  do 3 eexists; (split; [reflexivity|]); cbn;
  rewrite <- ?app_assoc; cbn; split_and!; try reflexivity;
  repeat (apply List.Forall_cons; [first [left; reflexivity | right; reflexivity]|]);
  apply List.Forall_nil.

Lemma replies_app (tr1 tr2 : list event) :
  replies (tr1 ++ tr2) = replies tr1 ++ replies tr2.
Proof. unfold replies. apply omap_app. Qed.

(** A reply handed to the sender: the call never raises, is recorded once,
    posts at most to the current channel, and leaves the rest alone. *)
Lemma send_markdown_message_effect title content w :
  exists sent w' extra,
    DingTalkIO.send_markdown_message E title content w = (Ok sent, w') /\
    trace w' = trace w ++ Reply (MarkdownMsg title content) :: extra /\
    Forall (fun e => is_log e = true \/
                     e = Post (webhook_url w) (MarkdownMsg title content)) extra /\
    db w' = db w /\ db_calls w' = db_calls w /\ clock_reads w' = clock_reads w /\
    webhook_url w' = webhook_url w /\ session_webhook w' = session_webhook w /\
    session_webhook_expired_time w' = session_webhook_expired_time w.
Proof.
  unfold DingTalkIO.send_markdown_message, DingTalkIO._send_message. run.
  destruct (truthy (webhook_url w)); cbn; [|leaf].
  destruct (http_post E (webhook_url w) (MarkdownMsg title content))
    as [[status [result|e]]|e]; cbn; [| |leaf].
  - destruct (status =? 200); cbn; [|leaf].
    destruct (Py.get result "errcode" PNone) as [errcode|e]; cbn; [|leaf].
    destruct (eq_zero errcode); cbn; leaf.
  - destruct (status =? 200); cbn; leaf.
Qed.

Lemma post_or_log_quiet (url : pyval) (m : outmsg) (extra : list event) :
  Forall (fun e => is_log e = true \/ e = Post url m) extra ->
  replies extra = [] /\ Forall (fun e => is_pipeline e = false) extra.
Proof.
  induction 1 as [|e extra [He| ->] _ [IH1 IH2]]; [done| |].
  - destruct e; try discriminate. split; [exact IH1 | by constructor].
  - split; [exact IH1 | by constructor].
Qed.

(** The guidance reply: one reply, titled as the "no image" hint, and nothing
    else but its posting and logging. *)
Lemma send_no_image_message_effect message w :
  exists w' content extra,
    DingTalkWebhookService._send_no_image_message E message w = (Ok tt, w') /\
    trace w' = trace w ++ extra /\
    replies extra = [MarkdownMsg "图片检测提示" content] /\
    Forall (fun e => is_pipeline e = false) extra /\
    db w' = db w /\ db_calls w' = db_calls w.
Proof.
  unfold DingTalkWebhookService._send_no_image_message.
  unfold try_except, bind at 1.
  match goal with
  | |- context [DingTalkIO.send_markdown_message E ?t ?c w] =>
      destruct (send_markdown_message_effect t c w)
        as (sent & w' & extra & -> & Htr & Hextra & Hdb & Hcalls & _);
      apply post_or_log_quiet in Hextra as [Hrep Hpipe];
      exists w', c, (Reply (MarkdownMsg t c) :: extra)
  end.
  split_and!; try done.
  - unfold replies in *. cbn. by rewrite Hrep.
  - by constructor.
Qed.

(** The error reply: one reply, titled as the processing error, and nothing
    else but its posting and logging. *)
Lemma send_error_message_effect message error w :
  exists w' content extra,
    DingTalkWebhookService._send_error_message E message error w = (Ok tt, w') /\
    trace w' = trace w ++ extra /\
    replies extra = [MarkdownMsg "处理错误" content] /\
    Forall (fun e => is_pipeline e = false) extra /\
    db w' = db w /\ db_calls w' = db_calls w.
Proof.
  unfold DingTalkWebhookService._send_error_message.
  unfold try_except, bind at 1.
  match goal with
  | |- context [DingTalkIO.send_markdown_message E ?t ?c w] =>
      destruct (send_markdown_message_effect t c w)
        as (sent & w' & extra & -> & Htr & Hextra & Hdb & Hcalls & _);
      apply post_or_log_quiet in Hextra as [Hrep Hpipe];
      exists w', c, (Reply (MarkdownMsg t c) :: extra)
  end.
  split_and!; try done.
  - unfold replies in *. cbn. by rewrite Hrep.
  - by constructor.
Qed.


(** C5 on the code: when the signature check fails, [handle_callback] raises
    the 401 inside its own [try], whose [except Exception] turns it into a
    500; the caller receives status 500.  Nothing is sent to the chat: the
    only new event is the error log. *)
Theorem webhook_bad_signature_status service request w :
  DingTalkCallbackHandler.verify_signature service
    (default "" (DingTalkWebhookService.headers request !! "timestamp"))
    (default "" (DingTalkWebhookService.headers request !! "sign")) = false ->
  exists w',
    Main.respond E (Some service) request w
      = ({| Main.status_code := 500;
            Main.body := Main.Detail (E.(str_exn) (HTTPException 401 "签名验证失败")) |},
         w') /\
    trace w' = trace w ++ [Log ERROR ("处理钉钉回调失败: "
                                      ++ E.(str_exn) (HTTPException 401 "签名验证失败"))] /\
    db w' = db w.
Proof.
  intros Hbad.
  unfold Main.respond, Main.dingtalk_webhook, DingTalkWebhookService.handle_callback.
  rewrite Hbad. run. eexists. split_and!; reflexivity.
Qed.

End Service.



(** A request without [timestamp] and [sign] headers. *)
Lemma webhook_bad_signature_status_witness :
  let E := Scenario.externals (Ok []) (fun _ => false) in
  exists w',
    Main.respond E (Some Scenario.service) Scenario.unsigned_request Scenario.start
      = ({| Main.status_code := 500;
            Main.body := Main.Detail (Runtime.str_exn E (HTTPException 401 "签名验证失败")) |},
         w') /\
    Runtime.trace w'
      = Runtime.trace Scenario.start
        ++ [Runtime.Log Runtime.ERROR
              ("处理钉钉回调失败: " ++ Runtime.str_exn E (HTTPException 401 "签名验证失败"))] /\
    Runtime.db w' = Runtime.db Scenario.start.
Proof.
  intros E.
  apply (webhook_bad_signature_status E Scenario.service Scenario.unsigned_request
           Scenario.start).
  vm_compute. reflexivity.
Defined.

(** ** Persistence does not gate the reply *)

Section Persistence.
Import Runtime.
Variable E : Externals.

Lemma largest_key_nonneg (keys : list Z) (seq : Z) : 0 <= Database.largest_key keys seq.
Proof.
  unfold Database.largest_key.
  assert (0 <= fold_right Z.max 0 keys); [|lia].
  induction keys as [|k keys IH]; cbn; lia.
Qed.

Lemma save_detection_result_key db created result db' key :
  Database.save_detection_result db created result = Ok (db', key) -> 0 < key.
Proof.
  unfold Database.save_detection_result, Database.next_rowid, rbind.
  repeat case_match; try discriminate. intros [= _ <-].
  match goal with H : Ok _ = Ok _ |- _ => injection H as <- end.
  pose proof (largest_key_nonneg (map Database.row_id (Database.detection_results db))
                (Database.detection_results_seq db)). lia.
Qed.

Ltac listed := apply list_elem_of_In; cbn; eauto 6.

Ltac absorbed :=
  do 3 eexists; (split; [reflexivity|]); cbn; rewrite <- ?app_assoc; cbn;
  split_and!; try reflexivity; try done;
  [ repeat (apply List.Forall_cons; [reflexivity|]); apply List.Forall_nil
  | first [ left; split; [done|]; eexists; listed
          | right; split; [done|]; listed ] ].

(** The persistence call never raises.  It reads the clock once and, besides
    the store, changes only the log.  When a write fails it returns [-1],
    having logged the error; otherwise it returns the new key. *)
Lemma save_detection_result_absorbs image result message_id user_id group_id w :
  exists detection_id w' logs,
    LockDetector.save_detection_result E image result message_id user_id group_id w
      = (Ok detection_id, w') /\
    trace w' = trace w ++ logs /\
    Forall (fun e => is_log e = true) logs /\
    webhook_url w' = webhook_url w /\ session_webhook w' = session_webhook w /\
    session_webhook_expired_time w' = session_webhook_expired_time w /\
    clock_reads w' = S (clock_reads w) /\
    (E.(db_fault) (db_calls w) = true -> detection_id = -1 /\ db w' = db w) /\
    ((detection_id = -1 /\
      exists e, Log ERROR ("保存检测结果失败: " ++ E.(str_exn) e) ∈ logs) \/
     (0 < detection_id /\
      Log INFO ("检测结果已保存到数据库: " ++ Str.of_Z detection_id) ∈ logs)).
Proof.
  unfold LockDetector.save_detection_result, LockDetector._calculate_image_hash,
    transaction.
  unfold try_except, bind, ret, raise, lift, logger, emit, now. cbn.
  destruct (md5_gray E image) as [image_hash|e0]; cbn;
    (destruct (db_fault E (db_calls w)) eqn:Hf1; cbn; [absorbed|]);
    (destruct (Database.save_detection_result _ _ _) as [[db1 key]|e1] eqn:Hs1; cbn;
       [|absorbed]);
    pose proof (save_detection_result_key _ _ _ _ _ Hs1) as Hkey;
    (destruct (db_fault E (S (db_calls w))); cbn; [absorbed|]);
    (destruct (Database.save_lock_details db1 key _) as [db2|e2]; cbn; absorbed).
Qed.

End Persistence.

Section Agreement.
Import Runtime.

Lemma non_log_app (tr1 tr2 : list event) :
  non_log (tr1 ++ tr2) = non_log tr1 ++ non_log tr2.
Proof. unfold non_log. apply List.filter_app. Qed.

Lemma same_outside_store_emit w1 w2 e :
  same_outside_store w1 w2 ->
  same_outside_store (snd (emit e w1)) (snd (emit e w2)).
Proof.
  intros (? & ? & ? & ? & Htr). unfold same_outside_store; cbn.
  split_and!; try done. rewrite !non_log_app. by rewrite Htr.
Qed.

Lemma same_outside_store_log w1 w2 l1 t1 l2 t2 :
  same_outside_store w1 w2 ->
  same_outside_store (snd (logger l1 t1 w1)) (snd (logger l2 t2 w2)).
Proof.
  intros (? & ? & ? & ? & Htr). unfold same_outside_store; cbn.
  split_and!; try done. rewrite !non_log_app. cbn. by rewrite !app_nil_r.
Qed.

Lemma agree_ret {A} (a : A) : agree (ret a) (ret a).
Proof. by intros w1 w2 H. Qed.

Lemma agree_raise {A} (e : exn) : agree (@raise A e) (raise e).
Proof. by intros w1 w2 H. Qed.

Lemma agree_lift {A} (r : res A) : agree (lift r) (lift r).
Proof. by intros w1 w2 H. Qed.

Lemma agree_emit e : agree (emit e) (emit e).
Proof. intros w1 w2 H. split; [done | by apply same_outside_store_emit]. Qed.

Lemma agree_logger l t : agree (logger l t) (logger l t).
Proof. apply agree_emit. Qed.

Lemma agree_now E1 E2 : clock E1 = clock E2 -> agree (now E1) (now E2).
Proof.
  intros Hclock w1 w2 (? & ? & ? & Hreads & ?). unfold now, same_outside_store; cbn.
  rewrite Hclock, Hreads. by split_and!.
Qed.

Lemma agree_set_session url expired : agree (set_session url expired) (set_session url expired).
Proof. intros w1 w2 (? & ? & ? & ? & ?). unfold same_outside_store; cbn. by split_and!. Qed.

Lemma agree_get_webhook_url : agree get_webhook_url get_webhook_url.
Proof. intros w1 w2 H. unfold get_webhook_url; cbn. split; [|done]. f_equal. apply H. Qed.

Lemma agree_bind {A B} (m1 m2 : M A) (k1 k2 : A -> M B) :
  agree m1 m2 -> (forall a, agree (k1 a) (k2 a)) -> agree (bind m1 k1) (bind m2 k2).
Proof.
  intros Hm Hk w1 w2 Hw. unfold bind.
  destruct (Hm w1 w2 Hw) as [Hres Hw'].
  destruct (m1 w1) as [[a1|e1] w1'], (m2 w2) as [[a2|e2] w2']; cbn in *; try done.
  - injection Hres as ->. by apply Hk.
  - injection Hres as ->. by split.
Qed.

Lemma agree_try_except {A} (b1 b2 : M A) (h1 h2 : exn -> M A) :
  agree b1 b2 -> (forall e, agree (h1 e) (h2 e)) ->
  agree (try_except b1 h1) (try_except b2 h2).
Proof.
  intros Hb Hh w1 w2 Hw. unfold try_except.
  destruct (Hb w1 w2 Hw) as [Hres Hw'].
  destruct (b1 w1) as [[a1|e1] w1'], (b2 w2) as [[a2|e2] w2']; cbn in *; try done.
  injection Hres as ->. by apply Hh.
Qed.

(** A step whose value the rest ignores may return differently on the two
    sides. *)
Lemma agree_bind_ignored {A B} (m1 m2 : M A) (k1 k2 : M B) :
  agree_returning m1 m2 -> agree k1 k2 ->
  agree (bind m1 (fun _ => k1)) (bind m2 (fun _ => k2)).
Proof.
  intros Hm Hk w1 w2 Hw. unfold bind.
  destruct (Hm w1 w2 Hw) as ([a1 H1] & [a2 H2] & Hw').
  destruct (m1 w1) as [r1 w1'], (m2 w2) as [r2 w2']; cbn in *. subst.
  by apply Hk.
Qed.

Create HintDb agree.

Ltac agree_step :=
  first
    [ solve [auto with agree nocore]
    | apply agree_ret | apply agree_raise | apply agree_lift | apply agree_emit
    | apply agree_logger | apply agree_now; reflexivity | apply agree_set_session
    | apply agree_get_webhook_url
    | apply agree_bind; [|intros ?]
    | apply agree_try_except; [|intros ?]
    | match goal with
      | |- agree (if ?b then _ else _) (if ?b then _ else _) => destruct b
      | |- agree (match ?x with _ => _ end) (match ?x with _ => _ end) => destruct x
      end ].

Ltac project :=
  cbn [with_db_fault clock repr str_exn json_text json_dumps strftime format_2f
       http_get http_post image_open md5_gray create_classification_visualization
       image_to_base64 predict str].

Variable E : Externals.
Variable fault : nat -> bool.

Lemma agree_send_message message :
  agree (DingTalkIO._send_message E message)
        (DingTalkIO._send_message (with_db_fault E fault) message).
Proof. unfold DingTalkIO._send_message. project. repeat agree_step. Qed.
#[local] Hint Resolve agree_send_message : agree.

Lemma agree_send_markdown_message title content :
  agree (DingTalkIO.send_markdown_message E title content)
        (DingTalkIO.send_markdown_message (with_db_fault E fault) title content).
Proof. unfold DingTalkIO.send_markdown_message. project. repeat agree_step. Qed.
#[local] Hint Resolve agree_send_markdown_message : agree.

Lemma agree_download_image image_url download_code :
  agree (DingTalkIO.download_image E image_url download_code)
        (DingTalkIO.download_image (with_db_fault E fault) image_url download_code).
Proof.
  unfold DingTalkIO.download_image, DingTalkIO.download_url. project.
  repeat agree_step.
Qed.
#[local] Hint Resolve agree_download_image : agree.

Lemma agree_detect_locks image th :
  agree (LockDetector.detect_locks E image th)
        (LockDetector.detect_locks (with_db_fault E fault) image th).
Proof. unfold LockDetector.detect_locks. project. repeat agree_step. Qed.
#[local] Hint Resolve agree_detect_locks : agree.

Lemma agree_visualize_detection image result :
  agree (LockDetector.visualize_detection E image result)
        (LockDetector.visualize_detection (with_db_fault E fault) image result).
Proof. unfold LockDetector.visualize_detection. project. repeat agree_step. Qed.
#[local] Hint Resolve agree_visualize_detection : agree.

Lemma agree_send_no_image_message message :
  agree (DingTalkWebhookService._send_no_image_message E message)
        (DingTalkWebhookService._send_no_image_message (with_db_fault E fault) message).
Proof. unfold DingTalkWebhookService._send_no_image_message. project. repeat agree_step. Qed.
#[local] Hint Resolve agree_send_no_image_message : agree.

Lemma agree_send_download_error_message message :
  agree (DingTalkWebhookService._send_download_error_message E message)
        (DingTalkWebhookService._send_download_error_message (with_db_fault E fault) message).
Proof.
  unfold DingTalkWebhookService._send_download_error_message. project. repeat agree_step.
Qed.
#[local] Hint Resolve agree_send_download_error_message : agree.

Lemma agree_send_error_message message error :
  agree (DingTalkWebhookService._send_error_message E message error)
        (DingTalkWebhookService._send_error_message (with_db_fault E fault) message error).
Proof. unfold DingTalkWebhookService._send_error_message. project. repeat agree_step. Qed.
#[local] Hint Resolve agree_send_error_message : agree.

Lemma agree_send_detection_result message result image :
  agree (DingTalkWebhookService._send_detection_result E message result image)
        (DingTalkWebhookService._send_detection_result (with_db_fault E fault)
           message result image).
Proof.
  unfold DingTalkWebhookService._send_detection_result,
    DingTalkWebhookService._build_result_text.
  project. repeat agree_step.
Qed.
#[local] Hint Resolve agree_send_detection_result : agree.

Lemma non_log_logs (tr logs : list event) :
  Forall (fun e => is_log e = true) logs -> non_log (tr ++ logs) = non_log tr.
Proof.
  intros Hlogs. rewrite non_log_app.
  replace (non_log logs) with (@nil event); [by rewrite app_nil_r|].
  induction Hlogs as [|e logs He _ IH]; [done|].
  unfold non_log in *. cbn. by rewrite He.
Qed.

Lemma agree_save_detection_result image result message_id user_id group_id :
  agree_returning
    (LockDetector.save_detection_result E image result message_id user_id group_id)
    (LockDetector.save_detection_result (with_db_fault E fault) image result
       message_id user_id group_id).
Proof.
  intros w1 w2 (Hurl & Hsess & Hexp & Hreads & Htr).
  destruct (save_detection_result_absorbs E image result message_id user_id group_id w1)
    as (id1 & w1' & logs1 & -> & Htr1 & Hlogs1 & Hurl1 & Hsess1 & Hexp1 & Hreads1 & _).
  destruct (save_detection_result_absorbs (with_db_fault E fault) image result
              message_id user_id group_id w2)
    as (id2 & w2' & logs2 & -> & Htr2 & Hlogs2 & Hurl2 & Hsess2 & Hexp2 & Hreads2 & _).
  cbn. split; [eauto|]. split; [eauto|].
  unfold same_outside_store.
  rewrite Hurl1, Hurl2, Hsess1, Hsess2, Hexp1, Hexp2, Hreads1, Hreads2, Htr1, Htr2.
  rewrite !non_log_logs by done. by split_and!; try congruence.
Qed.

(** Handling a message agrees with itself under another behaviour of the
    database file. *)
Lemma agree_process_message message :
  agree (DingTalkWebhookService._process_message E message)
        (DingTalkWebhookService._process_message (with_db_fault E fault) message).
Proof.
  unfold DingTalkWebhookService._process_message. project.
  repeat first
    [ apply agree_bind_ignored; [apply agree_save_detection_result|]
    | agree_step ].
Qed.

End Agreement.

Section Delivery.
Import Runtime.
Variable E : Externals.

Lemma answers_bind_quiet {A B} (m : M A) (k : A -> M B) (V : A -> Prop)
    (Q : B -> list outmsg -> Prop) :
  answers m (fun a sent => sent = [] /\ V a) ->
  (forall a, V a -> answers (k a) Q) ->
  answers (bind m k) Q.
Proof.
  intros Hm Hk w. unfold bind.
  destruct (Hm w) as (a & w1 & sent1 & -> & Hrep1 & -> & Ha).
  destruct (Hk a Ha w1) as (b & w2 & sent2 & -> & Hrep2 & Hb).
  exists b, w2, sent2. split_and!; try done.
  by rewrite Hrep2, Hrep1, app_nil_r.
Qed.

Lemma answers_try_except {A} (body : M A) (handler : exn -> M A)
    (P : A -> list outmsg -> Prop) :
  answers body P -> answers (try_except body handler) P.
Proof.
  intros Hb w. unfold try_except.
  destruct (Hb w) as (a & w' & sent & -> & Hrep & Ha). by exists a, w', sent.
Qed.

Lemma answers_weaken {A} (m : M A) (P Q : A -> list outmsg -> Prop) :
  answers m P -> (forall a sent, P a sent -> Q a sent) -> answers m Q.
Proof.
  intros Hm HPQ w. destruct (Hm w) as (a & w' & sent & Hrun & Hrep & Ha).
  exists a, w', sent. split_and!; try done. by apply HPQ.
Qed.

Ltac quiet :=
  intros ?; do 3 eexists; (split; [reflexivity|]); cbn;
  rewrite ?replies_app; cbn; rewrite ?app_nil_r; by split_and!.

Lemma answers_ret {A} (a : A) : answers (ret a) (fun x sent => sent = [] /\ x = a).
Proof. quiet. Qed.

Lemma answers_logger lvl text : answers (logger lvl text) (fun _ sent => sent = [] /\ True).
Proof. quiet. Qed.

Lemma answers_set_session url expired :
  answers (set_session url expired) (fun _ sent => sent = [] /\ True).
Proof. quiet. Qed.

Lemma answers_detect_locks image th :
  answers (LockDetector.detect_locks E image th) (fun _ sent => sent = [] /\ True).
Proof.
  unfold LockDetector.detect_locks, try_except, bind, now, emit, lift, logger, emit, ret.
  cbn.
  destruct (E.(predict) image th) as [[|pred rest]|e]; cbn; try quiet.
  destruct (probs pred) as [[top1 conf]|]; cbn; try quiet.
  all: try (destruct (Result.add_lock _ _ _ _ _); cbn; quiet).
Qed.

Lemma answers_visualize_detection image result :
  answers (LockDetector.visualize_detection E image result)
          (fun _ sent => sent = [] /\ True).
Proof.
  unfold LockDetector.visualize_detection, try_except, bind, emit, lift, logger, emit, ret.
  destruct (Result.lock_details result) as [|lock_detail rest]; cbn; try quiet.
  destruct (create_classification_visualization E image _ _); cbn; quiet.
Qed.

Lemma replies_logs (logs : list event) :
  Forall (fun e => is_log e = true) logs -> replies logs = [].
Proof.
  induction 1 as [|e logs He _ IH]; [done|].
  destruct e; try discriminate. exact IH.
Qed.

Lemma answers_save_detection_result image result message_id user_id group_id :
  answers (LockDetector.save_detection_result E image result message_id user_id group_id)
          (fun _ sent => sent = [] /\ True).
Proof.
  intros w.
  destruct (save_detection_result_absorbs E image result message_id user_id group_id w)
    as (id & w' & logs & Hrun & Htr & Hlogs & _).
  exists id, w', []. rewrite Hrun, Htr, replies_app, (replies_logs logs Hlogs).
  by split_and!.
Qed.

Lemma answers_download_image image_url download_code data image :
  E.(http_get) (DingTalkIO.download_url E image_url download_code) = Ok (200, data) ->
  E.(image_open) data = Ok image ->
  answers (DingTalkIO.download_image E image_url download_code)
          (fun a sent => sent = [] /\ a = Some image).
Proof.
  intros Hget Hopen.
  unfold DingTalkIO.download_image, try_except, bind, emit, lift, logger, emit, ret.
  rewrite Hget. cbn. rewrite Hopen. quiet.
Qed.

Lemma answers_send_detection_result message result image :
  answers (DingTalkWebhookService._send_detection_result E message result image)
          (fun _ sent => exists content, sent = [MarkdownMsg "锁检测结果" content]).
Proof.
  intros w. unfold DingTalkWebhookService._send_detection_result.
  unfold try_except, bind at 1.
  match goal with
  | |- context [DingTalkIO.send_markdown_message E ?t ?c w] =>
      destruct (send_markdown_message_effect E t c w)
        as (sent & w' & extra & -> & Htr & Hextra & _);
      apply post_or_log_quiet in Hextra as [Hrep _];
      assert (Hsent : replies (trace w') = replies (trace w) ++ [MarkdownMsg t c])
        by (rewrite Htr, replies_app; unfold replies in *; cbn; by rewrite Hrep)
  end.
  unfold logger, emit. destruct sent; cbn.
  - do 3 eexists. split; [reflexivity|]. cbn. rewrite replies_app, Hsent. cbn.
    rewrite app_nil_r. eauto.
  - do 3 eexists. split; [reflexivity|]. cbn. rewrite replies_app, Hsent. cbn.
    rewrite app_nil_r. eauto.
Qed.

Lemma answers_lift_ok {A} (a : A) : answers (lift (Ok a)) (fun x sent => sent = [] /\ x = a).
Proof. quiet. Qed.

Tactic Notation "step" uconstr(lemma) :=
  eapply answers_bind_quiet; [apply lemma | intros ? ?; cbv beta in *; subst].

(** Once the first image has been fetched, handling the message ends with
    the detection-result reply, and with no other reply, whatever the store
    does. *)
Lemma process_message_delivers message image_url rest download_code data image :
  DingTalkCallbackHandler.extract_image_urls message = Ok (image_url :: rest) ->
  (exists fresh, gt_zero (DingTalkMessage.session_webhook_expired_time message) = Ok fresh) ->
  (if truthy (Images.download_code (DingTalkMessage.images message))
   then DingTalkWebhookService.first (Images.download_code (DingTalkMessage.images message))
   else Ok (PStr "")) = Ok download_code ->
  E.(http_get) (DingTalkIO.download_url E image_url download_code) = Ok (200, data) ->
  E.(image_open) data = Ok image ->
  answers (DingTalkWebhookService._process_message E message)
          (fun _ sent => exists content, sent = [MarkdownMsg "锁检测结果" content]).
Proof.
  intros Hurls [fresh Hfresh] Hcode Hget Hopen.
  unfold DingTalkWebhookService._process_message.
  apply answers_try_except. rewrite Hurls, Hfresh.
  eapply (answers_bind_quiet _ _ (fun _ => True)).
  { destruct (truthy (DingTalkMessage.session_webhook message)).
    - eapply answers_weaken; [apply answers_lift_ok | by intros ? ? [-> _]].
    - eapply answers_weaken; [apply answers_ret | by intros ? ? [-> _]]. }
  intros fresh' _.
  eapply (answers_bind_quiet _ _ (fun _ => True)).
  { destruct fresh'.
    - step answers_set_session. apply answers_logger.
    - eapply answers_weaken; [apply answers_ret | by intros ? ? [-> _]]. }
  intros _ _.
  step answers_lift_ok.
  eapply (answers_bind_quiet _ _ (fun c => c = download_code)).
  { destruct (truthy (Images.download_code (DingTalkMessage.images message))).
    - rewrite Hcode. apply answers_lift_ok.
    - injection Hcode as <-. apply answers_ret. }
  intros ? ->.
  step (answers_download_image image_url download_code data image Hget Hopen).
  step answers_detect_locks.
  step answers_save_detection_result.
  step answers_visualize_detection.
  apply answers_send_detection_result.
Qed.

End Delivery.



(** ** The signature check *)

(** [verify_signature] accepts exactly the signatures that equal the base64
    text of the HMAC-SHA256, under the secret, of the timestamp, a newline
    and the signature itself. *)
Lemma verify_signature_iff self timestamp sign :
  DingTalkCallbackHandler.verify_signature self timestamp sign = true <->
  Hmac.decode
    (Hmac.b64encode
       (Hmac.hmac_sha256
          (Hmac.encode (DingTalkCallbackHandler.app_secret self))
          (Hmac.encode (timestamp ++ Str.nl ++ sign)))) = sign.
Proof. unfold DingTalkCallbackHandler.verify_signature. apply String.eqb_eq. Qed.

(** The digest of a known key and message. *)
Example hmac_sha256_vector :
  Hmac.hex (Hmac.hmac_sha256 (Hmac.encode "key")
              (Hmac.encode "The quick brown fox jumps over the lazy dog"))
  = "f7bc83f430538424b13298e6aa6fb143ef4d59a14946175997479dbc2d1a3cd8".
Proof. vm_compute. reflexivity. Qed.

(** A request whose signature is the HMAC of the timestamp, a newline and
    the secret is rejected, as is one without signature. *)
Example verify_signature_rejects_secret_signed :
  DingTalkCallbackHandler.verify_signature Scenario.service "1700000000000"
    "mklI3Yi2DSXJWIUpb8p0+jTRRUlu4R7qnEv6BWtbXyY=" = false.
Proof. vm_compute. reflexivity. Qed.

Example verify_signature_rejects_empty :
  DingTalkCallbackHandler.verify_signature Scenario.service "" "" = false.
Proof. vm_compute. reflexivity. Qed.

(** * Further properties of the code *)

(** ** apps/lock_detector.py: [LockDetectionResult] *)

Section ResultFacts.
Import Invariants.

(** X1: [add_lock] returns exactly when the box has its four coordinates;
    otherwise it raises [KeyError] for the first one it lacks, in the order
    xmin, ymin, xmax, ymax. *)
Theorem add_lock_first_missing self ty lk c bb :
  match first_missing bb with
  | Some key => Result.add_lock self ty lk c bb = Raise (KeyError key)
  | None => exists self', Result.add_lock self ty lk c bb = Ok self'
  end.
Proof.
  unfold first_missing, Result.add_lock, Result.item, rbind. cbn.
  destruct (bb !! "xmin") as [xmin|]; cbn; [|done].
  destruct (bb !! "ymin") as [ymin|]; cbn; [|done].
  destruct (bb !! "xmax") as [xmax|]; cbn; [|done].
  destruct (bb !! "ymax") as [ymax|]; cbn; [|done].
  eauto.
Qed.

Lemma add_lock_confidence r r' ty lk c bb :
  Result.add_lock r ty lk c bb = Ok r' ->
  Result.confidence_score r' = fmax (Result.confidence_score r) c.
Proof.
  unfold Result.add_lock, rbind.
  repeat (destruct (Result.item bb _); [|discriminate]).
  by intros [= <-].
Qed.

Lemma count_locked_snoc lk details d :
  count_locked lk (details ++ [d])
  = count_locked lk details + (if Bool.eqb (Result.is_locked d) lk then 1 else 0).
Proof.
  unfold count_locked. rewrite List.filter_app, length_app. cbn.
  destruct (Bool.eqb (Result.is_locked d) lk); cbn; lia.
Qed.

(** X2: on every result built by [add_lock] calls, the three counters are
    the counts of the detail list: its length, its locked entries and its
    entries that are not locked. *)
Theorem counters_count_details now r :
  Result.reachable now r ->
  Result.total_locks r = Z.of_nat (length (Result.lock_details r)) /\
  Result.locked_locks r = count_locked true (Result.lock_details r) /\
  Result.unlocked_locks r = count_locked false (Result.lock_details r).
Proof.
  induction 1 as [|r r' ty lk c bb _ (IHt & IHl & IHu) Hadd]; [done|].
  apply add_lock_ok in Hadd
    as (d & _ & Hlk & _ & _ & _ & _ & _ & _ & Hds & Ht & Hl & Hu & _).
  rewrite Hds, Ht, Hl, Hu, !count_locked_snoc, length_app, Hlk, IHt, IHl, IHu. cbn.
  destruct lk; cbn; split_and!; lia.
Qed.

(** X3: the overall confidence of such a result is the initial 0.0 or the
    confidence of one of its entries. *)
Theorem confidence_is_of_an_entry now r :
  Result.reachable now r ->
  Result.confidence_score r = 0%float \/
  exists d, d ∈ Result.lock_details r /\ Result.confidence d = Result.confidence_score r.
Proof.
  induction 1 as [|r r' ty lk c bb _ IH Hadd]; [by left|].
  pose proof (add_lock_confidence _ _ _ _ _ _ Hadd) as Hscore.
  apply add_lock_ok in Hadd as (d & _ & _ & Hc & _ & _ & _ & _ & _ & Hds & _).
  rewrite Hscore, Hds. unfold fmax.
  destruct (PrimFloat.ltb (Result.confidence_score r) c).
  - right. exists d. split; [apply elem_of_app; right; by apply list_elem_of_singleton | done].
  - destruct IH as [IH | (d' & Hin & Hd')]; [by left|].
    right. exists d'. split; [apply elem_of_app; by left | done].
Qed.

End ResultFacts.

(** The first call of the unit test, on both properties. *)
Lemma counters_count_details_witness :
  exists r,
    Result.add_lock (Result.new 0) "padlock" false 0.5%float
      (Result.bbox_of 100 100 200 200) = Ok r /\
    Result.total_locks r = Z.of_nat (length (Result.lock_details r)) /\
    Result.locked_locks r = Invariants.count_locked true (Result.lock_details r) /\
    Result.unlocked_locks r = Invariants.count_locked false (Result.lock_details r).
Proof.
  eexists. split; [reflexivity|].
  apply (counters_count_details 0).
  apply (Result.reach_add 0 (Result.new 0) _ "padlock" false 0.5%float
           (Result.bbox_of 100 100 200 200)); [apply Result.reach_new | reflexivity].
Defined.

Lemma confidence_is_of_an_entry_witness :
  exists r,
    Result.add_lock (Result.new 0) "padlock" false 0.5%float
      (Result.bbox_of 100 100 200 200) = Ok r /\
    (Result.confidence_score r = 0%float \/
     exists d, d ∈ Result.lock_details r /\ Result.confidence d = Result.confidence_score r).
Proof.
  eexists. split; [reflexivity|].
  apply (confidence_is_of_an_entry 0).
  apply (Result.reach_add 0 (Result.new 0) _ "padlock" false 0.5%float
           (Result.bbox_of 100 100 200 200)); [apply Result.reach_new | reflexivity].
Defined.

(** ** apps/database.py: the two tables *)

Section StoreFacts.
Import Database Invariants.

Lemma NoDup_map_filter {A B} (f : A -> B) (P : A -> Prop) `{forall x, Decision (P x)}
    (l : list A) :
  NoDup (map f l) -> NoDup (map f (filter P l)).
Proof.
  induction l as [|x l IH]; [done|].
  change (map f (x :: l)) with (f x :: map f l). intros [Hx Hl]%NoDup_cons.
  rewrite filter_cons. case_decide; [|by apply IH].
  change (map f (x :: filter P l)) with (f x :: map f (filter P l)).
  apply NoDup_cons. split; [|by apply IH].
  intros Hin. apply Hx. apply list_elem_of_fmap in Hin as (y & -> & Hy).
  apply list_elem_of_filter in Hy as [_ Hy]. by apply list_elem_of_fmap_2.
Qed.

Lemma Forall_map_filter {A B} (f : A -> B) (Q : B -> Prop) (P : A -> Prop)
    `{forall x, Decision (P x)} (l : list A) :
  Forall Q (map f l) -> Forall Q (map f (filter P l)).
Proof.
  induction l as [|x l IH]; [done|].
  change (map f (x :: l)) with (f x :: map f l). intros [Hx Hl]%Forall_cons.
  rewrite filter_cons. case_decide; [|by apply IH].
  change (map f (x :: filter P l)) with (f x :: map f (filter P l)).
  apply Forall_cons. split; [done | by apply IH].
Qed.

Lemma NoDup_snoc_fresh {A} (l : list A) (x : A) : NoDup l -> x ∉ l -> NoDup (l ++ [x]).
Proof.
  intros Hl Hx. apply NoDup_app. split_and!; [done | | apply NoDup_singleton].
  intros y Hy ->%list_elem_of_singleton. by apply Hx.
Qed.

Lemma seq_le_largest (ks : list Z) (seq : Z) : seq <= largest_key ks seq.
Proof. unfold largest_key. lia. Qed.

(** What a successful save has done to the detection table. *)
Lemma save_detection_result_inv db now result db' key :
  save_detection_result db now result = Ok (db', key) ->
  key = largest_key (map row_id db.(detection_results)) db.(detection_results_seq) + 1 /\
  db'.(detection_results)
    = filter (fun r => r.(row_values).(image_hash) ≠ result.(image_hash))
        db.(detection_results)
      ++ [{| row_id := key; row_values := result; created_at := now |}] /\
  db'.(detection_results_seq) = key /\
  db'.(lock_details) = db.(lock_details) /\
  db'.(lock_details_seq) = db.(lock_details_seq).
Proof.
  unfold save_detection_result, next_rowid, rbind.
  repeat case_match; try discriminate.
  match goal with H : Ok _ = Ok _ |- _ => injection H as <- end.
  by intros [= <- <-].
Qed.


Lemma insert_lock_detail_inv db detection_id detail db' :
  insert_lock_detail db detection_id detail = Ok db' ->
  db'.(detection_results) = db.(detection_results) /\
  db'.(detection_results_seq) = db.(detection_results_seq) /\
  db'.(lock_details_seq)
    = largest_key (map ld_id db.(lock_details)) db.(lock_details_seq) + 1 /\
  db'.(lock_details)
    = db.(lock_details) ++ [lock_row_of db'.(lock_details_seq) detection_id detail].
Proof.
  unfold insert_lock_detail, next_rowid, rbind.
  repeat case_match; try discriminate.
  match goal with H : Ok _ = Ok _ |- _ => injection H as <- end.
  by intros [= <-].
Qed.

Lemma save_lock_details_rows db detection_id details db' :
  save_lock_details db detection_id details = Ok db' ->
  db'.(detection_results) = db.(detection_results) /\
  db'.(detection_results_seq) = db.(detection_results_seq) /\
  exists new_keys,
    length new_keys = length details /\
    db'.(lock_details)
      = db.(lock_details)
        ++ zip_with (fun key detail => lock_row_of key detection_id detail)
             new_keys details.
Proof.
  revert db. induction details as [|detail details IH]; intros db; cbn.
  - intros [= <-]. split_and!; try done. exists []. by rewrite app_nil_r.
  - unfold rbind at 1.
    destruct (insert_lock_detail db detection_id detail) as [db1|e] eqn:Hins; [|done].
    intros Hrest. apply insert_lock_detail_inv in Hins as (Hr & Hs & _ & Hl).
    apply IH in Hrest as (Hr' & Hs' & keys' & Hlen & Hl').
    split_and!; [congruence | congruence |].
    exists (lock_details_seq db1 :: keys'). split; [cbn; lia|].
    rewrite Hl', Hl, <- app_assoc. done.
Qed.


Lemma save_detection_result_well_formed db now result db' key :
  well_formed db ->
  save_detection_result db now result = Ok (db', key) ->
  well_formed db'.
Proof.
  intros (Hfp & Hkeys & Hrange & Hlk & Hlrange) Hsave.
  apply save_detection_result_inv in Hsave as (Hkey & Hrows & Hseq & Hl & Hlseq).
  set (L := largest_key (map row_id (detection_results db)) (detection_results_seq db)) in *.
  pose proof (largest_key_nonneg (map row_id (detection_results db))
                (detection_results_seq db)) as HL0.
  pose proof (seq_le_largest (map row_id (detection_results db))
                (detection_results_seq db)) as HLseq.
  fold L in HL0, HLseq.
  unfold well_formed, fingerprints, keys in *.
  rewrite Hrows, Hseq, Hl, Hlseq, !map_app. cbn.
  split_and!; try done.
  - apply NoDup_snoc_fresh; [by apply NoDup_map_filter|].
    intros (r & Heq & [Hne _]%list_elem_of_filter)%list_elem_of_fmap. by apply Hne.
  - apply NoDup_snoc_fresh; [by apply NoDup_map_filter|].
    intros (r & Heq & [_ Hr]%list_elem_of_filter)%list_elem_of_fmap.
    pose proof (row_id_le_largest _ (detection_results_seq db) r Hr) as Hle.
    fold L in Hle. lia.
  - apply Forall_app. split.
    + apply Forall_map_filter. eapply Forall_impl; [exact Hrange|]. cbn. lia.
    + apply Forall_singleton. lia.
Qed.

Lemma insert_lock_detail_well_formed db detection_id detail db' :
  well_formed db ->
  insert_lock_detail db detection_id detail = Ok db' ->
  well_formed db'.
Proof.
  intros (Hfp & Hkeys & Hrange & Hlk & Hlrange) Hins.
  apply insert_lock_detail_inv in Hins as (Hr & Hs & Hseq & Hl).
  set (L := largest_key (map ld_id (lock_details db)) (lock_details_seq db)) in *.
  pose proof (largest_key_nonneg (map ld_id (lock_details db)) (lock_details_seq db)) as HL0.
  pose proof (seq_le_largest (map ld_id (lock_details db)) (lock_details_seq db)) as HLseq.
  fold L in HL0, HLseq.
  unfold well_formed, fingerprints, keys in *.
  rewrite Hr, Hs, Hl, !map_app. cbn. rewrite Hseq.
  split_and!; try done.
  - apply NoDup_snoc_fresh; [done|].
    intros Hin. pose proof (key_le_largest _ (lock_details_seq db) _ Hin) as Hle.
    fold L in Hle. lia.
  - apply Forall_app. split.
    + eapply Forall_impl; [exact Hlrange|]. cbn. lia.
    + apply Forall_singleton. lia.
Qed.

Lemma save_lock_details_well_formed db detection_id details db' :
  well_formed db ->
  save_lock_details db detection_id details = Ok db' ->
  well_formed db'.
Proof.
  revert db. induction details as [|detail details IH]; intros db Hwf; cbn.
  - by intros [= <-].
  - unfold rbind at 1.
    destruct (insert_lock_detail db detection_id detail) as [db1|e] eqn:Hins; [|done].
    apply IH. by eapply insert_lock_detail_well_formed.
Qed.

(** X6: every store that the two writing methods produce from a new file has
    no fingerprint twice and no key twice, in either table, and every key is
    positive and at most the table's counter. *)
Theorem written_well_formed db : written db -> well_formed db.
Proof.
  induction 1 as [|db now result db' key _ IH Hsave|db id details db' _ IH Hsave].
  - unfold well_formed, fingerprints, keys. cbn. split_and!; constructor.
  - by eapply save_detection_result_well_formed.
  - by eapply save_lock_details_well_formed.
Qed.

Lemma length_filter_remove {A B} `{EqDecision B} (f : A -> B) (h : B) (l : list A) :
  NoDup (map f l) ->
  length l = (length (filter (fun x => f x ≠ h) l)
              + (if bool_decide (h ∈ map f l) then 1 else 0))%nat.
Proof.
  induction l as [|x l IH]; [done|].
  change (map f (x :: l)) with (f x :: map f l). intros [Hx Hl]%NoDup_cons.
  specialize (IH Hl). rewrite filter_cons.
  destruct (decide (f x = h)) as [Heq|Hne].
  - rewrite decide_False by (intros Hc; by apply Hc).
    rewrite bool_decide_true by (subst; left).
    subst h. rewrite bool_decide_false in IH by done. cbn [length]. lia.
  - rewrite decide_True by done. cbn [length].
    destruct (bool_decide (h ∈ map f l)) eqn:Hin.
    + apply bool_decide_eq_true in Hin. rewrite bool_decide_true by (by right). lia.
    + apply bool_decide_eq_false in Hin.
      rewrite bool_decide_false; [lia|]. intros [Hc|Hc]%elem_of_cons; congruence.
Qed.

(** X7: in a store that holds no fingerprint twice, saving a record whose
    fingerprint is already there leaves the number of detections as it is;
    saving one with a new fingerprint adds one. *)
Theorem save_counts_fingerprints db now result db' key :
  NoDup (fingerprints db) ->
  save_detection_result db now result = Ok (db', key) ->
  length db'.(detection_results)
  = if bool_decide (image_hash result ∈ fingerprints db)
    then length db.(detection_results)
    else S (length db.(detection_results)).
Proof.
  intros Hfp Hsave.
  apply save_detection_result_inv in Hsave as (_ & -> & _).
  rewrite length_app. cbn.
  pose proof (length_filter_remove (fun r => image_hash (row_values r)) (image_hash result)
                (detection_results db) Hfp) as Hlen.
  unfold fingerprints. destruct (bool_decide _); lia.
Qed.

Lemma filter_all {A} (P : A -> Prop) `{forall x, Decision (P x)} (l : list A) :
  Forall P l -> filter P l = l.
Proof.
  induction 1 as [|x l Hx _ IH]; [done|]. by rewrite filter_cons_True, IH.
Qed.

Lemma lock_rows_detection_id detection_id new_keys details :
  Forall (fun row => Database.detection_id row = detection_id)
    (zip_with (fun key detail => lock_row_of key detection_id detail) new_keys details).
Proof.
  revert details. induction new_keys as [|k ks IH]; intros [|d ds]; cbn; try constructor.
  - done.
  - apply IH.
Qed.

(** X8: after a record has been saved with its details, saving a record with
    the same fingerprint gives the detection a new key; the first key finds
    no detection any more, while the detail rows written under it are all
    still in [lock_details]. *)
Theorem replace_orphans_details db now1 now2 r1 r2 details db1 key1 db2 :
  image_hash r1 = image_hash r2 ->
  save_detection_result db now1 r1 = Ok (db1, key1) ->
  save_lock_details db1 key1 details = Ok db2 ->
  storable r2 = true ->
  key1 < max_rowid ->
  exists db3 key2,
    save_detection_result db2 now2 r2 = Ok (db3, key2) /\
    key1 < key2 /\
    select_by_id db3 key1 = None /\
    (length details
     <= length (filter (fun row => Database.detection_id row = key1) db3.(lock_details)))%nat.
Proof.
  intros Hhash Hs1 Hd Hst2 Hroom.
  apply save_detection_result_inv in Hs1 as (Hkey1 & Hrows1 & Hseq1 & _).
  apply save_lock_details_rows in Hd as (Hrows2 & Hseq2 & new_keys & Hlen & Hl2).
  set (L := largest_key (map row_id (detection_results db)) (detection_results_seq db)) in *.
  set (keep := fun r : detection_row => image_hash (row_values r) ≠ image_hash r2).
  rewrite Hhash in Hrows1. fold keep in Hrows1.
  assert (HL2 : largest_key (map row_id (detection_results db2)) (detection_results_seq db2)
                = key1).
  { rewrite Hrows2, Hseq2, Hrows1, Hseq1, map_app. cbn.
    apply (largest_key_snoc _ (detection_results_seq db)).
    pose proof (largest_key_filter keep (detection_results db) (detection_results_seq db)).
    fold L in H. lia. }
  pose proof (save_detection_result_ok db2 now2 r2 Hst2 ltac:(rewrite HL2; lia)) as Hs2.
  rewrite HL2 in Hs2. fold keep in Hs2.
  do 2 eexists. split; [exact Hs2|]. split; [lia|].
  unfold select_by_id; cbn. split.
  - rewrite Hrows2, Hrows1, !filter_app, list_filter_filter.
    rewrite (filter_cons_False keep) by (unfold keep; cbn; intros Hne; by apply Hne).
    rewrite !filter_nil, app_nil_r.
    rewrite (filter_none (fun a => row_id a = key1 /\ keep a)).
    + rewrite filter_cons_False by (cbn; lia). done.
    + intros r [_ Hr]%list_elem_of_filter [Hid _].
      pose proof (row_id_le_largest _ (detection_results_seq db) r Hr) as Hle.
      fold L in Hle. lia.
  - rewrite Hl2, filter_app, length_app.
    rewrite (filter_all _ _ (lock_rows_detection_id key1 new_keys details)).
    rewrite length_zip_with. lia.
Qed.

Lemma sum_nonneg (xs : list Z) : forallb (Z.leb 0) xs = true -> 0 <= fold_right Z.add 0 xs.
Proof.
  induction xs as [|x xs IH]; cbn; [lia|].
  intros [Hx Hxs]%andb_prop. apply Z.leb_le in Hx. specialize (IH Hxs). lia.
Qed.

(** X9: on a store whose count columns hold counts within 64 bits,
    [get_statistics] returns; its lock totals are the sums of the two
    columns, and neither the unsafe detections nor today's detections exceed
    the total. *)
Theorem get_statistics_counts db today :
  counts_fit db = true ->
  exists s,
    get_statistics db today = Ok s /\
    s.(total_locks)
      = fold_right Z.add 0 (map (fun r => locks_detected (row_values r)) db.(detection_results)) /\
    s.(total_unlocked)
      = fold_right Z.add 0 (map (fun r => unlocked_locks (row_values r)) db.(detection_results)) /\
    0 <= s.(total_locks) /\ 0 <= s.(total_unlocked) /\
    0 <= s.(unsafe_detections) <= s.(total_detections) /\
    0 <= s.(today_detections) <= s.(total_detections).
Proof.
  unfold counts_fit, get_statistics, rbind. intros Hfit.
  apply andb_prop in Hfit as [Hfit Hu]. apply andb_prop in Hfit as [Hfit Hl].
  apply andb_prop in Hfit as [Hpl Hpu].
  apply Z.leb_le in Hu, Hl.
  rewrite (sum_int64_fits _ 0) by (try done; lia).
  rewrite (sum_int64_fits _ 0) by (try done; lia).
  eexists. split; [reflexivity|]. cbn.
  pose proof (sum_nonneg _ Hpl). pose proof (sum_nonneg _ Hpu).
  pose proof (length_filter (fun r => is_safe r = false)
                (map row_values (detection_results db))).
  pose proof (length_filter (fun r => date (detection_time r) = today)
                (map row_values (detection_results db))).
  rewrite !map_map. rewrite !map_map in H, H0.
  split_and!; try done; lia.
Qed.

End StoreFacts.



(** The store after the record of the unit test has been saved. *)
Lemma written_well_formed_witness :
  exists db' key,
    Database.save_detection_result Database.empty 1700000001
      (Scenario.record "test.jpg" "abc123" 3 1 false) = Ok (db', key) /\
    Invariants.well_formed db'.
Proof.
  do 2 eexists. split; [reflexivity|].
  apply written_well_formed.
  eapply (Invariants.written_detection Database.empty 1700000001
            (Scenario.record "test.jpg" "abc123" 3 1 false));
    [apply Invariants.written_empty | reflexivity].
Defined.

(** The same fingerprint saved a second time. *)
Lemma save_counts_fingerprints_witness :
  exists db1 key1 db2 key2,
    Database.save_detection_result Database.empty 1700000001
      (Scenario.record "test.jpg" "abc123" 3 1 false) = Ok (db1, key1) /\
    Database.save_detection_result db1 1700000002
      (Scenario.record "again.jpg" "abc123" 2 0 true) = Ok (db2, key2) /\
    length (Database.detection_results db2)
    = if bool_decide ("abc123" ∈ Invariants.fingerprints db1)
      then length (Database.detection_results db1)
      else S (length (Database.detection_results db1)).
Proof.
  do 4 eexists. split; [reflexivity|]. split; [reflexivity|].
  eapply (save_counts_fingerprints _ 1700000002
            (Scenario.record "again.jpg" "abc123" 2 0 true)).
  - apply NoDup_singleton.
  - reflexivity.
Defined.

(** A record saved with one detail, then replaced. *)
Lemma replace_orphans_details_witness :
  exists r db1 key1 db2,
    Result.add_lock (Result.new 0) "padlock" false 0.5%float
      (Result.bbox_of 100 100 200 200) = Ok r /\
    Database.save_detection_result Database.empty 1700000001
      (Scenario.record "test.jpg" "abc123" 1 1 false) = Ok (db1, key1) /\
    Database.save_lock_details db1 key1 (Result.lock_details r) = Ok db2 /\
    exists db3 key2,
      Database.save_detection_result db2 1700000002
        (Scenario.record "again.jpg" "abc123" 1 1 false) = Ok (db3, key2) /\
      key1 < key2 /\
      Database.select_by_id db3 key1 = None /\
      (length (Result.lock_details r)
       <= length (filter (fun row => Database.detection_id row = key1)
                    (Database.lock_details db3)))%nat.
Proof.
  do 4 eexists.
  split; [reflexivity|]. split; [reflexivity|]. split; [reflexivity|].
  eapply (replace_orphans_details Database.empty 1700000001 1700000002
            (Scenario.record "test.jpg" "abc123" 1 1 false)
            (Scenario.record "again.jpg" "abc123" 1 1 false)); reflexivity.
Defined.

(** The store with three rows. *)
Lemma get_statistics_counts_witness :
  exists s,
    Database.get_statistics Scenario.three_rows 19675 = Ok s /\
    Database.total_locks s = 3 /\ Database.total_unlocked s = 1.
Proof.
  destruct (get_statistics_counts Scenario.three_rows 19675 eq_refl)
    as (s & Hs & Hl & Hu & _).
  exists s. split_and!; [exact Hs | rewrite Hl; reflexivity | rewrite Hu; reflexivity].
Defined.

(** ** apps/dingtalk.py: parsing, mentions and the signature *)

Section MessageFacts.
Import Runtime.
Variable E : Externals.

Lemma dict_or_not (v : pyval) : (exists d, v = PDict d) \/ ~ (exists d, v = PDict d).
Proof. destruct v; first [left; by eexists | right; by intros [? [=]]]. Qed.

(** The value under a nested key: absent, or a dict, since every other value
    makes the nested [from_dict] raise. *)
Ltac nested_dict key :=
  let v := fresh "v" in
  let Hk := fresh "Hk" in
  let Hn := fresh "Hn" in
  destruct (_ !! key) as [v|] eqn:Hk;
  [ rewrite bool_decide_true by eauto; cbn;
    destruct (dict_or_not v) as [[? ->]|Hn];
    [|destruct v; try discriminate; exfalso; apply Hn; by eexists]; cbn
  | absent_key ].

Ltac each_nested_key :=
  let k := fresh "k" in
  let Hk := fresh "Hk" in
  intros _; split; [done|]; intros k ? Hk ?;
  repeat (apply elem_of_cons in Hk as [->|Hk]); [..|by apply elem_of_nil in Hk];
  simplify_eq; by eexists.

(** X10: [from_dict] returns exactly on the payloads that are JSON objects
    without the [content] key in which [images], [atUsers] and [text], where
    present, are objects; on every other payload it raises. *)
Theorem from_dict_accepts (data : pyval) :
  (exists msg, DingTalkMessage.from_dict data = Ok msg) <->
  exists d, data = PDict d /\ d !! "content" = None /\
    (forall k v, k ∈ ["images"; "atUsers"; "text"] -> d !! k = Some v ->
                 exists d', v = PDict d').
Proof.
  split.
  - intros [msg Hmsg]. destruct data as [| | | | | |d]; try discriminate.
    exists d. split; [done|].
    revert Hmsg.
    unfold DingTalkMessage.from_dict, DingTalkMessage.nested, DingTalkMessage.has_key,
      DingTalkMessage.item, Py.get, rbind.
    destruct (d !! "content") as [c|] eqn:Hc.
    { rewrite bool_decide_true by eauto. discriminate. }
    absent_key.
    nested_dict "images"; nested_dict "atUsers"; nested_dict "text"; each_nested_key.
  - intros (d & -> & Hc & Hnested).
    destruct (from_dict_defaults d Hc Hnested) as (msg & Hmsg & _). by exists msg.
Qed.

(** X11: for a payload without [content] whose [images] is an object with
    a list under [imageUrl], and whose [atUsers] and [text], where present,
    are objects, parsing returns a message, logs nothing and changes
    nothing, and the image references of that message are that list, in
    order. *)
Theorem parse_then_extract_image_urls (d di : gmap string pyval) (urls : list pyval) w :
  d !! "content" = None ->
  d !! "images" = Some (PDict di) ->
  di !! "imageUrl" = Some (PList urls) ->
  (forall k v, k ∈ ["atUsers"; "text"] -> d !! k = Some v -> exists d', v = PDict d') ->
  exists msg,
    DingTalkIO.parse_callback_message E (PDict d) w = (Ok msg, w) /\
    DingTalkCallbackHandler.extract_image_urls msg = Ok urls.
Proof.
  intros Hc Hi Hu Hnested.
  unfold DingTalkIO.parse_callback_message, try_except, lift.
  unfold DingTalkMessage.from_dict, DingTalkMessage.nested, DingTalkMessage.has_key,
    DingTalkMessage.item, Images.from_dict, Py.get, rbind.
  rewrite Hc, Hi, Hu. absent_key. rewrite bool_decide_true by eauto. cbn.
  nested_key Hnested "atUsers"; nested_key Hnested "text";
    (eexists; split; [reflexivity|]);
    unfold DingTalkCallbackHandler.extract_image_urls; cbn; by destruct urls.
Qed.

Lemma is_infix_at_lower (s : string) :
  Str.is_infix "@" s = true -> Str.is_infix "@" (Str.lower s) = true.
Proof.
  induction s as [|c s IH]; [done|].
  cbn [Str.is_infix Str.lower]. intros [Hp|Hr]%orb_prop.
  - assert (c = Ascii.ascii_of_nat 64) as ->.
    { revert Hp. cbn [String.prefix].
      destruct (Ascii.ascii_dec _ c) as [<-|]; [done|discriminate]. }
    change (Str.lower_ascii (Ascii.ascii_of_nat 64)) with (Ascii.ascii_of_nat 64).
    cbn [String.prefix].
    destruct (Ascii.ascii_dec _ _) as [_|Hne]; [|by destruct Hne].
    by destruct (Str.lower s).
  - rewrite (IH Hr). apply orb_true_r.
Qed.

(** X12: a message whose text holds the character [@] counts as addressed to
    the bot, whoever is mentioned and whatever the bot's key is. *)
Theorem is_mentioned_at_sign self message (s : string) :
  Text.content (DingTalkMessage.text message) = PStr s ->
  Str.is_infix "@" s = true ->
  DingTalkCallbackHandler.is_mentioned_to_bot self message = Ok true.
Proof.
  intros Hs Hat. unfold DingTalkCallbackHandler.is_mentioned_to_bot. rewrite Hs.
  assert (truthy (PStr s) = true) as ->.
  { destruct s; [discriminate | reflexivity]. }
  unfold DingTalkCallbackHandler.lower, rbind.
  by rewrite (is_infix_at_lower s Hat).
Qed.

End MessageFacts.

(** A payload with one image reference. *)
Lemma parse_then_extract_image_urls_witness :
  let E := Scenario.externals (Ok []) (fun _ => false) in
  exists msg,
    DingTalkIO.parse_callback_message E
      (PDict (<["images" :=
                  PDict (<["imageUrl" := PList [PStr "http://example.com/test.jpg"]]> ∅)]> ∅))
      Scenario.start
    = (Ok msg, Scenario.start) /\
    DingTalkCallbackHandler.extract_image_urls msg = Ok [PStr "http://example.com/test.jpg"].
Proof.
  intros E.
  apply (parse_then_extract_image_urls E _
           (<["imageUrl" := PList [PStr "http://example.com/test.jpg"]]> ∅)).
  - reflexivity.
  - reflexivity.
  - reflexivity.
  - intros k v Hk Hv. exfalso.
    repeat (apply elem_of_cons in Hk as [->|Hk]); [..|by apply elem_of_nil in Hk];
      discriminate.
Defined.

(** The text message of the scenario. *)
Lemma is_mentioned_at_sign_witness :
  DingTalkCallbackHandler.is_mentioned_to_bot Scenario.service Scenario.text_message
  = Ok true.
Proof.
  apply (is_mentioned_at_sign Scenario.service Scenario.text_message "@bot"); reflexivity.
Defined.

(** ** The length of a signature *)

Section SignatureFacts.
Import Hmac.

Lemma round_length (st : list Z) (kw : Z * Z) : length (round st kw) = length st.
Proof.
  unfold round.
  do 9 (destruct st as [|? st]; [reflexivity|]). reflexivity.
Qed.

Lemma fold_round_length (kws : list (Z * Z)) (st : list Z) :
  length (fold_left round kws st) = length st.
Proof.
  revert st. induction kws as [|kw kws IH]; intros st; [done|].
  cbn [fold_left]. by rewrite IH, round_length.
Qed.

Lemma compress_length (h : list Z) (block : bytes) : length (compress h block) = length h.
Proof.
  unfold compress. rewrite length_zip_with, fold_round_length. lia.
Qed.

Lemma blocks_length (n : nat) (h : list Z) (b : bytes) : length (blocks n h b) = length h.
Proof.
  revert h b. induction n as [|n IH]; intros h b; [done|].
  cbn [blocks]. by rewrite IH, compress_length.
Qed.

Lemma flat_map_be4_length (ws : list Z) : length (flat_map (be 4) ws) = (4 * length ws)%nat.
Proof.
  induction ws as [|w ws IH]; [done|].
  cbn [flat_map]. rewrite length_app, IH. unfold be. rewrite length_map, length_seq.
  cbn [length]. lia.
Qed.

(** A SHA-256 digest has 32 bytes. *)
Lemma sha256_length (msg : bytes) : length (sha256 msg) = 32%nat.
Proof.
  unfold sha256. rewrite flat_map_be4_length, blocks_length. reflexivity.
Qed.

Lemma hmac_sha256_length (key msg : bytes) : length (hmac_sha256 key msg) = 32%nat.
Proof. unfold hmac_sha256. apply sha256_length. Qed.

(** Base64 writes four characters for every three bytes, the last group
    padded. *)
Lemma b64encode_length_aux (n : nat) :
  forall b : bytes, (length b <= n)%nat ->
    length (b64encode b) = (4 * ((length b + 2) / 3))%nat.
Proof.
  induction n as [|n IH]; intros b Hb.
  - destruct b; [reflexivity | cbn in Hb; lia].
  - destruct b as [|x [|y [|z rest]]]; try reflexivity.
    change (b64encode (x :: y :: z :: rest))
      with ([b64_char (Z.shiftr x 2);
             b64_char (Z.lor (Z.shiftl (Z.land x 3) 4) (Z.shiftr y 4));
             b64_char (Z.lor (Z.shiftl (Z.land y 15) 2) (Z.shiftr z 6));
             b64_char (Z.land z 63)] ++ b64encode rest).
    rewrite length_app, IH by (cbn [length] in Hb; lia).
    cbn [length].
    replace (S (S (S (length rest))) + 2)%nat with (1 * 3 + (length rest + 2))%nat by lia.
    rewrite Nat.div_add_l by lia. lia.
Qed.

Lemma b64encode_length (b : bytes) :
  length (b64encode b) = (4 * ((length b + 2) / 3))%nat.
Proof. by apply (b64encode_length_aux (length b)). Qed.

Lemma decode_length (b : bytes) : String.length (decode b) = length b.
Proof.
  unfold decode. induction b as [|x b IH]; [done|]. cbn. by rewrite IH.
Qed.

(** X13: a signature that is not 44 characters long is rejected, under every
    secret and timestamp: the text it is compared with is the base64 form of
    a 32-byte digest. *)
Theorem verify_signature_length self (timestamp sign : string) :
  String.length sign <> 44%nat ->
  DingTalkCallbackHandler.verify_signature self timestamp sign = false.
Proof.
  intros Hlen. unfold DingTalkCallbackHandler.verify_signature.
  apply String.eqb_neq. intros Heq. apply Hlen. rewrite <- Heq.
  rewrite decode_length, b64encode_length, hmac_sha256_length. reflexivity.
Qed.

End SignatureFacts.

(** A signature of three characters. *)
Lemma verify_signature_length_witness :
  DingTalkCallbackHandler.verify_signature Scenario.service "1700000000000" "abc" = false.
Proof.
  apply (verify_signature_length Scenario.service "1700000000000" "abc").
  cbn. lia.
Defined.

(** ** apps/lock_detector.py: persistence *)

Section DetectorStore.
Import Runtime Invariants.
Variable E : Externals.

Lemma text_id_bindable (v : pyval) :
  Database.text_id v = true -> Database.bindable v = true.
Proof. by destruct v. Qed.

Lemma int64_key (k : Z) : 0 <= k -> k <= Database.max_rowid -> Database.int64 k = true.
Proof.
  intros H0 H1. unfold Database.int64, Database.max_rowid in *.
  apply andb_true_intro. split; apply Z.leb_le; lia.
Qed.

(** [save_lock_details] returns when the numbers fit and the key counter has
    room for one key per detail. *)
Lemma save_lock_details_succeeds db detection_id details :
  Database.int64 detection_id = true ->
  Forall (fun d => detail_fits d = true) details ->
  Database.largest_key (map Database.ld_id db.(Database.lock_details))
    db.(Database.lock_details_seq) + Z.of_nat (length details) <= Database.max_rowid ->
  exists db', Database.save_lock_details db detection_id details = Ok db'.
Proof.
  intros Hid Hfit. revert db.
  induction Hfit as [|detail details Hd _ IH]; intros db Hroom; [by eexists|].
  cbn [Database.save_lock_details]. unfold rbind at 1.
  destruct (Database.insert_lock_detail db detection_id detail) as [db1|e] eqn:Hins.
  - apply insert_lock_detail_inv in Hins as (_ & _ & Hseq & Hrows).
    apply IH. rewrite Hrows, Hseq, map_app. cbn [map length] in *.
    rewrite (largest_key_snoc _ (Database.lock_details_seq db)) by (cbn; lia).
    cbn. lia.
  - exfalso. revert Hins.
    unfold Database.insert_lock_detail, Database.bind_int, Database.next_rowid, rbind.
    unfold detail_fits in Hd.
    apply andb_prop in Hd as [Hd Hh]. apply andb_prop in Hd as [Hd Hw].
    apply andb_prop in Hd as [Hx Hy].
    rewrite Hid, Hx, Hy, Hw, Hh.
    cbn [length] in Hroom.
    destruct (Database.max_rowid <=? _) eqn:Hfull; [|discriminate].
    apply Z.leb_le in Hfull. lia.
Qed.


(** X15: when the store takes the first write and fails on the second, the
    detector's [save_detection_result] reports [-1] although the detection
    is stored: the row is found under the new key, with the counters of the
    result and the message id it was given (the ids being strings or
    [None]), and no detail row has been added. *)
Theorem detector_save_partial image result message_id user_id group_id w :
  E.(db_fault) (db_calls w) = false ->
  E.(db_fault) (S (db_calls w)) = true ->
  Database.int64 result.(Result.total_locks) = true ->
  Database.int64 result.(Result.unlocked_locks) = true ->
  Database.text_id message_id = true ->
  Database.text_id user_id = true ->
  Database.text_id group_id = true ->
  Database.largest_key (keys (db w)) (db w).(Database.detection_results_seq)
    < Database.max_rowid ->
  exists w' row,
    LockDetector.save_detection_result E image result message_id user_id group_id w
      = (Ok (-1), w') /\
    Database.select_by_id (db w')
      (Database.largest_key (keys (db w)) (db w).(Database.detection_results_seq) + 1)
      = Some row /\
    Database.locks_detected (Database.row_values row) = result.(Result.total_locks) /\
    Database.unlocked_locks (Database.row_values row) = result.(Result.unlocked_locks) /\
    Database.is_safe (Database.row_values row) = result.(Result.is_safe) /\
    Database.dingtalk_message_id (Database.row_values row) = message_id /\
    Database.lock_details (db w') = Database.lock_details (db w) /\
    db_calls w' = S (S (db_calls w)).
Proof.
  intros Hf1 Hf2 Ht Hu Hm Hus Hg Hroom.
  set (record :=
    {| Database.id := None;
       Database.image_url := "";
       Database.image_hash := match E.(md5_gray) image with Ok h => h | Raise _ => "" end;
       Database.detection_time := result.(Result.detection_time);
       Database.locks_detected := result.(Result.total_locks);
       Database.unlocked_locks := result.(Result.unlocked_locks);
       Database.lock_positions := E.(json_dumps) result.(Result.lock_details);
       Database.confidence_score := result.(Result.confidence_score);
       Database.dingtalk_message_id := message_id;
       Database.user_id := user_id;
       Database.group_id := group_id;
       Database.is_safe := result.(Result.is_safe) |}).
  assert (Hst : Database.storable record = true).
  { unfold Database.storable. cbn.
    by rewrite Ht, Hu, !text_id_bindable. }
  pose proof (save_detection_result_ok (db w) (E.(clock) (clock_reads w)) record Hst Hroom)
    as Hsave.
  set (key := Database.largest_key (keys (db w)) (Database.detection_results_seq (db w)) + 1)
    in *.
  unfold LockDetector.save_detection_result, LockDetector._calculate_image_hash, transaction.
  unfold try_except, bind, ret, raise, lift, logger, emit, now. cbn.
  destruct (md5_gray E image) as [h|e0]; cbn; rewrite Hf1; fold record; unfold keys in *;
    rewrite Hsave; cbn; rewrite Hf2; fold key; cbn;
    (do 2 eexists; split; [reflexivity|]; cbn;
     unfold Database.select_by_id; cbn [Database.detection_results];
     rewrite filter_app, (filter_none (fun r => Database.row_id r = key));
     [ rewrite filter_cons_True by done; cbn; split; [reflexivity|]; by split_and!
     | intros r [_ Hr]%list_elem_of_filter;
       pose proof (row_id_le_largest _ (Database.detection_results_seq (db w)) r Hr);
       unfold key; lia ]).
Qed.

End DetectorStore.


(** The store fails on its second access. *)
Lemma detector_save_partial_witness :
  let E := Scenario.externals (Ok []) (fun k => Nat.eqb k 1) in
  exists w' row,
    LockDetector.save_detection_result E Scenario.image (Result.new 0) (PStr "msg")
      (PStr "user") (PStr "group") Scenario.start = (Ok (-1), w') /\
    Database.select_by_id (Runtime.db w') 1 = Some row /\
    Database.dingtalk_message_id (Database.row_values row) = PStr "msg".
Proof.
  intros E.
  destruct (detector_save_partial E Scenario.image (Result.new 0) (PStr "msg") (PStr "user")
              (PStr "group") Scenario.start eq_refl eq_refl eq_refl eq_refl eq_refl eq_refl
              eq_refl eq_refl)
    as (w' & row & Hrun & Hrow & _ & _ & _ & Hmsg & _).
  exists w', row. split; [exact Hrun|]. split; [exact Hrow | exact Hmsg].
Defined.

(** ** apps/dingtalk.py: fetching an image and posting a reply *)

Section SenderFacts.
Import Runtime Invariants.
Variable E : Externals.

Lemma posts_app (tr1 tr2 : list event) : posts (tr1 ++ tr2) = posts tr1 ++ posts tr2.
Proof. unfold posts. apply omap_app. Qed.

Lemma posts_logs (logs : list event) : Forall (fun e => is_log e = true) logs -> posts logs = [].
Proof.
  induction 1 as [|e logs He _ IH]; [done|].
  destruct e; try discriminate. exact IH.
Qed.

(** X16: [download_image] never raises and asks the image host once, for the
    address with the download code appended when there is one; it returns an
    image exactly when the answer has status 200 and its body can be
    decoded.  Besides the request it only logs. *)
Theorem download_image_outcome image_url download_code w :
  exists r w' logs,
    DingTalkIO.download_image E image_url download_code w = (Ok r, w') /\
    trace w' = trace w ++ Get (DingTalkIO.download_url E image_url download_code) :: logs /\
    Forall (fun e => is_log e = true) logs /\
    db w' = db w /\ webhook_url w' = webhook_url w /\
    (forall image,
       r = Some image <->
       exists data,
         E.(http_get) (DingTalkIO.download_url E image_url download_code) = Ok (200, data) /\
         E.(image_open) data = Ok image).
Proof.
  unfold DingTalkIO.download_image, try_except, bind, emit, lift, logger, emit, ret. cbn.
  destruct (http_get E _) as [[status data]|e] eqn:Hget; cbn.
  - destruct (status =? 200) eqn:Hstatus; cbn.
    + apply Z.eqb_eq in Hstatus as ->.
      destruct (image_open E data) as [image|e] eqn:Hopen; cbn;
        do 3 eexists; (split; [reflexivity|]); cbn; rewrite <- ?app_assoc; cbn;
        (split; [reflexivity|]); split_and!; try done;
        try (repeat constructor; done).
      * intros image'. split.
        -- intros [= <-]. by exists data.
        -- intros (data' & [= <-] & Hopen'). congruence.
      * intros image'. split; [done|].
        intros (data' & [= <-] & Hopen'). congruence.
    + apply Z.eqb_neq in Hstatus.
      do 3 eexists. split; [reflexivity|]. cbn. rewrite <- ?app_assoc. cbn.
      split; [reflexivity|]. split_and!; try done; [by repeat constructor|].
      intros image'. split; [done|]. intros (data' & [= Hs _] & _). congruence.
  - do 3 eexists. split; [reflexivity|]. cbn. rewrite <- ?app_assoc. cbn.
    split; [reflexivity|]. split_and!; try done; [by repeat constructor|].
    intros image'. split; [done|]. intros (data' & [=] & _).
Qed.

(** X17: [send_markdown_message] never raises.  It posts, once and to the
    sender's current URL, exactly when that URL is set, and it returns [True]
    exactly when the answer to that post has status 200 and is an object
    whose [errcode] equals 0. *)
Theorem send_markdown_message_verdict title content w :
  exists sent w' extra,
    DingTalkIO.send_markdown_message E title content w = (Ok sent, w') /\
    trace w' = trace w ++ extra /\
    replies extra = [MarkdownMsg title content] /\
    posts extra
      = (if truthy (webhook_url w) then [(webhook_url w, MarkdownMsg title content)]
         else []) /\
    (sent = true <->
     truthy (webhook_url w) = true /\
     exists result,
       E.(http_post) (webhook_url w) (MarkdownMsg title content)
         = Ok (200, Ok (PDict result)) /\
       eq_zero (default PNone (result !! "errcode")) = true).
Proof.
  unfold DingTalkIO.send_markdown_message, DingTalkIO._send_message.
  unfold try_except, bind, ret, raise, lift, logger, emit, get_webhook_url. cbn.
  destruct (truthy (webhook_url w)) eqn:Hurl; cbn.
  - destruct (http_post E (webhook_url w) (MarkdownMsg title content))
      as [[status [result|e]]|e] eqn:Hpost; cbn.
    + destruct (status =? 200) eqn:Hstatus; cbn.
      * apply Z.eqb_eq in Hstatus as ->.
        destruct result as [| | | | | |result]; cbn;
          try (do 3 eexists; (split; [reflexivity|]); cbn; rewrite <- ?app_assoc; cbn;
               (split; [reflexivity|]); split_and!; try done;
               split; [done | by intros (_ & result' & [=] & _)]).
        destruct (eq_zero (default PNone (result !! "errcode"))) eqn:Hcode; cbn;
          do 3 eexists; (split; [reflexivity|]); cbn; rewrite <- ?app_assoc; cbn;
          (split; [reflexivity|]); split_and!; try done.
        -- split; [|done]. intros _. split; [done|]. by exists result.
        -- split; [done|]. intros (_ & result' & [= <-] & Hzero). congruence.
      * apply Z.eqb_neq in Hstatus.
        do 3 eexists. split; [reflexivity|]. cbn. rewrite <- ?app_assoc. cbn.
        split; [reflexivity|]. split_and!; try done.
        split; [done|]. intros (_ & result' & [= Hs _] & _). congruence.
    + destruct (status =? 200) eqn:Hstatus; cbn;
        do 3 eexists; (split; [reflexivity|]); cbn; rewrite <- ?app_assoc; cbn;
        (split; [reflexivity|]); split_and!; try done;
        (split; [done | by intros (_ & result' & [=] & _)]).
    + do 3 eexists. split; [reflexivity|]. cbn. rewrite <- ?app_assoc. cbn.
      split; [reflexivity|]. split_and!; try done.
      split; [done | by intros (_ & result' & [=] & _)].
  - do 3 eexists. split; [reflexivity|]. cbn. rewrite <- ?app_assoc. cbn.
    split; [reflexivity|]. split_and!; try done.
    split; [done | by intros [[=] _]].
Qed.

End SenderFacts.

(** ** apps/webhook_service.py: every message is answered once *)

Section ReplyFacts.
Import Runtime Invariants.
Variable E : Externals.

Ltac run :=
  unfold try_except, bind, ret, raise, lift, logger, emit, get_webhook_url, now,
    set_session; cbn.

Ltac ended :=
  do 3 eexists; (split; [reflexivity|]); cbn; rewrite <- ?app_assoc; cbn;
  (split; [reflexivity|]); split_and!; try done;
  repeat (apply List.Forall_cons; [reflexivity|]); apply List.Forall_nil.

(** What a reply handed to the sender adds to the trace. *)
Lemma send_markdown_message_trace title content w :
  exists sent w' extra,
    DingTalkIO.send_markdown_message E title content w = (Ok sent, w') /\
    trace w' = trace w ++ extra /\
    replies extra = [MarkdownMsg title content] /\
    posts extra
      = (if truthy (webhook_url w) then [(webhook_url w, MarkdownMsg title content)]
         else []) /\
    Forall (fun e => is_pipeline e = false) extra /\
    webhook_url w' = webhook_url w /\ db w' = db w /\ db_calls w' = db_calls w /\
    (truthy (webhook_url w) = false -> sent = false).
Proof.
  unfold DingTalkIO.send_markdown_message, DingTalkIO._send_message. run.
  destruct (truthy (webhook_url w)) eqn:Hurl; cbn; [|ended].
  destruct (http_post E (webhook_url w) (MarkdownMsg title content))
    as [[status [result|e]]|e]; cbn; [| |ended].
  - destruct (status =? 200); cbn; [|ended].
    destruct (Py.get result "errcode" PNone) as [errcode|e]; cbn; [|ended].
    destruct (eq_zero errcode); cbn; ended.
  - destruct (status =? 200); cbn; ended.
Qed.

Ltac one_reply_sent :=
  unfold try_except, bind at 1;
  match goal with
  | |- context [DingTalkIO.send_markdown_message E ?t ?c ?w0] =>
      destruct (send_markdown_message_trace t c w0)
        as (sent & w' & extra & -> & Htr & Hrep & Hposts & Hpipe & Hurl & Hdb & Hcalls & _);
      exists w', extra, c
  end;
  by split_and!.

Lemma send_no_image_message_trace message w :
  exists w' extra content,
    DingTalkWebhookService._send_no_image_message E message w = (Ok tt, w') /\
    trace w' = trace w ++ extra /\
    replies extra = [MarkdownMsg "图片检测提示" content] /\
    posts extra
      = (if truthy (webhook_url w)
         then [(webhook_url w, MarkdownMsg "图片检测提示" content)] else []) /\
    Forall (fun e => is_pipeline e = false) extra /\
    webhook_url w' = webhook_url w /\ db w' = db w /\ db_calls w' = db_calls w.
Proof. unfold DingTalkWebhookService._send_no_image_message. one_reply_sent. Qed.

Lemma send_download_error_message_trace message w :
  exists w' extra content,
    DingTalkWebhookService._send_download_error_message E message w = (Ok tt, w') /\
    trace w' = trace w ++ extra /\
    replies extra = [MarkdownMsg "图片下载失败" content] /\
    posts extra
      = (if truthy (webhook_url w)
         then [(webhook_url w, MarkdownMsg "图片下载失败" content)] else []) /\
    Forall (fun e => is_pipeline e = false) extra /\
    webhook_url w' = webhook_url w /\ db w' = db w /\ db_calls w' = db_calls w.
Proof. unfold DingTalkWebhookService._send_download_error_message. one_reply_sent. Qed.

Lemma send_error_message_trace message error w :
  exists w' extra content,
    DingTalkWebhookService._send_error_message E message error w = (Ok tt, w') /\
    trace w' = trace w ++ extra /\
    replies extra = [MarkdownMsg "处理错误" content] /\
    posts extra
      = (if truthy (webhook_url w)
         then [(webhook_url w, MarkdownMsg "处理错误" content)] else []) /\
    Forall (fun e => is_pipeline e = false) extra /\
    webhook_url w' = webhook_url w /\ db w' = db w /\ db_calls w' = db_calls w.
Proof. unfold DingTalkWebhookService._send_error_message. one_reply_sent. Qed.

Lemma send_detection_result_trace message result image w :
  exists w' extra content,
    DingTalkWebhookService._send_detection_result E message result image w = (Ok tt, w') /\
    trace w' = trace w ++ extra /\
    replies extra = [MarkdownMsg "锁检测结果" content] /\
    posts extra
      = (if truthy (webhook_url w)
         then [(webhook_url w, MarkdownMsg "锁检测结果" content)] else []) /\
    Forall (fun e => is_pipeline e = false) extra /\
    webhook_url w' = webhook_url w /\ db w' = db w /\ db_calls w' = db_calls w.
Proof.
  unfold DingTalkWebhookService._send_detection_result.
  unfold try_except, bind at 1.
  match goal with
  | |- context [DingTalkIO.send_markdown_message E ?t ?c w] =>
      destruct (send_markdown_message_trace t c w)
        as (sent & w' & extra & -> & Htr & Hrep & Hposts & Hpipe & Hurl & Hdb & Hcalls & _);
      set (content := c) in *
  end.
  unfold logger, emit.
  destruct sent; cbn;
    (eexists; eexists (extra ++ [_]); exists content; split; [reflexivity|]; cbn;
     split; [by rewrite Htr, <- app_assoc|];
     rewrite replies_app, posts_app, Hrep, Hposts;
     change (replies [_]) with (@nil outmsg);
     change (posts [_]) with (@nil (pyval * outmsg));
     rewrite ?app_nil_r;
     split_and!; try done;
     apply Forall_app; split; [done | by repeat constructor]).
Qed.

(** The steps before the reply add no reply and no post, and keep the
    sender's URL. *)
Lemma download_image_trace image_url download_code w :
  exists r w' extra,
    DingTalkIO.download_image E image_url download_code w = (Ok r, w') /\
    trace w' = trace w ++ extra /\
    replies extra = [] /\ posts extra = [] /\
    webhook_url w' = webhook_url w /\ db w' = db w /\ db_calls w' = db_calls w /\
    Forall (fun e => match e with Predict _ _ | Draw _ _ _ => False | _ => True end) extra /\
    ((forall data image,
        E.(http_get) (DingTalkIO.download_url E image_url download_code) = Ok (200, data) ->
        E.(image_open) data <> Ok image) ->
     r = None).
Proof.
  unfold DingTalkIO.download_image, try_except, bind, emit, lift, logger, emit, ret. cbn.
  destruct (http_get E _) as [[status data]|e] eqn:Hget; cbn.
  - destruct (status =? 200) eqn:Hstatus; cbn.
    + apply Z.eqb_eq in Hstatus as ->.
      destruct (image_open E data) as [image|e] eqn:Hopen; cbn;
        do 3 eexists; (split; [reflexivity|]); cbn; rewrite <- ?app_assoc; cbn;
        (split; [reflexivity|]); split_and!; try done; try (by repeat constructor).
      intros Hfail. by destruct (Hfail data image).
    + do 3 eexists. split; [reflexivity|]. cbn. rewrite <- ?app_assoc. cbn.
      split; [reflexivity|]. split_and!; try done. by repeat constructor.
  - do 3 eexists. split; [reflexivity|]. cbn. rewrite <- ?app_assoc. cbn.
    split; [reflexivity|]. split_and!; try done. by repeat constructor.
Qed.

Lemma detect_locks_trace image th w :
  exists r w' extra,
    LockDetector.detect_locks E image th w = (Ok r, w') /\
    trace w' = trace w ++ extra /\
    replies extra = [] /\ posts extra = [] /\ webhook_url w' = webhook_url w.
Proof.
  unfold LockDetector.detect_locks, try_except, bind, now, emit, lift, logger, emit, ret.
  cbn.
  destruct (E.(predict) image th) as [[|pred rest]|e]; cbn;
    [| destruct (probs pred) as [[top1 conf]|]; cbn;
       [destruct (Result.add_lock _ _ _ _ _); cbn|] |];
    do 3 eexists; (split; [reflexivity|]); cbn; rewrite <- ?app_assoc; cbn;
    (split; [reflexivity|]); by split_and!.
Qed.

Lemma visualize_detection_trace image result w :
  exists r w' extra,
    LockDetector.visualize_detection E image result w = (Ok r, w') /\
    trace w' = trace w ++ extra /\
    replies extra = [] /\ posts extra = [] /\ webhook_url w' = webhook_url w.
Proof.
  unfold LockDetector.visualize_detection, try_except, bind, emit, lift, logger, emit, ret.
  destruct (Result.lock_details result) as [|lock_detail rest]; cbn.
  { exists image, w, []. by rewrite app_nil_r. }
  destruct (create_classification_visualization E image _ _); cbn;
    do 3 eexists; (split; [reflexivity|]); cbn; rewrite <- ?app_assoc; cbn;
    (split; [reflexivity|]); by split_and!.
Qed.

Lemma save_detection_result_trace image result message_id user_id group_id w :
  exists r w' extra,
    LockDetector.save_detection_result E image result message_id user_id group_id w
      = (Ok r, w') /\
    trace w' = trace w ++ extra /\
    replies extra = [] /\ posts extra = [] /\ webhook_url w' = webhook_url w.
Proof.
  destruct (save_detection_result_absorbs E image result message_id user_id group_id w)
    as (id & w' & logs & Hrun & Htr & Hlogs & Hurl & _).
  exists id, w', logs. split_and!; try done.
  - by apply replies_logs.
  - by apply posts_logs.
Qed.

End ReplyFacts.

(** ** apps/webhook_service.py and main.py: paths, the manual call, the endpoint *)

Section OneReply.
Import Runtime Invariants.
Variable E : Externals.

Lemma replies_cons_log lvl text tr : replies (Log lvl text :: tr) = replies tr.
Proof. reflexivity. Qed.

Lemma posts_cons_log lvl text tr : posts (Log lvl text :: tr) = posts tr.
Proof. reflexivity. Qed.

Lemma replies_nil : replies [] = [].
Proof. reflexivity. Qed.

Lemma posts_nil : posts [] = [].
Proof. reflexivity. Qed.

Ltac fields :=
  cbv beta iota;
  cbn [db webhook_url session_webhook session_webhook_expired_time trace clock_reads
       db_calls] in *.

(** The trace, the replies, the posts and the URL at the end of a path, from
    what each step of the path has added. *)
Ltac traced :=
  repeat match goal with
         | H : trace _ = _ |- _ => rewrite H; clear H
         end;
  rewrite <- ?app_assoc; reflexivity.

Ltac counted :=
  rewrite ?replies_app, ?posts_app, ?replies_cons_log, ?posts_cons_log, ?replies_nil,
    ?posts_nil;
  repeat match goal with
         | H : webhook_url _ = _ |- _ => rewrite H in *; clear H
         end;
  fields;
  repeat match goal with
         | H : replies _ = _ |- _ => rewrite H; clear H
         | H : posts _ = _ |- _ => rewrite H; clear H
         end;
  rewrite ?app_nil_r; cbn [app].

Ltac path_end :=
  do 4 eexists; (split; [reflexivity|]); fields;
  split; [traced|];
  split; [counted; reflexivity|];
  split; [apply list_elem_of_In; cbn; eauto 6|];
  split; [counted; reflexivity|];
  counted; reflexivity.

Ltac send :=
  match goal with
  | |- context [DingTalkWebhookService._send_no_image_message E ?m ?w0] =>
      destruct (send_no_image_message_trace E m w0)
        as (? & ? & ? & -> & ? & ? & ? & _ & ? & _)
  | |- context [DingTalkWebhookService._send_download_error_message E ?m ?w0] =>
      destruct (send_download_error_message_trace E m w0)
        as (? & ? & ? & -> & ? & ? & ? & _ & ? & _)
  | |- context [DingTalkWebhookService._send_error_message E ?m ?err ?w0] =>
      destruct (send_error_message_trace E m err w0)
        as (? & ? & ? & -> & ? & ? & ? & _ & ? & _)
  | |- context [DingTalkWebhookService._send_detection_result E ?m ?r ?i ?w0] =>
      destruct (send_detection_result_trace E m r i w0)
        as (? & ? & ? & -> & ? & ? & ? & _ & ? & _)
  end.

Ltac quiet_step :=
  match goal with
  | |- context [DingTalkIO.download_image E ?u ?c ?w0] =>
      destruct (download_image_trace E u c w0) as (? & ? & ? & -> & ? & ? & ? & ? & _)
  | |- context [LockDetector.detect_locks E ?i ?th ?w0] =>
      destruct (detect_locks_trace E i th w0) as (? & ? & ? & -> & ? & ? & ? & ?)
  | |- context [LockDetector.save_detection_result E ?i ?r ?m ?u ?g ?w0] =>
      destruct (save_detection_result_trace E i r m u g w0)
        as (? & ? & ? & -> & ? & ? & ? & ?)
  | |- context [LockDetector.visualize_detection E ?i ?r ?w0] =>
      destruct (visualize_detection_trace E i r w0) as (? & ? & ? & -> & ? & ? & ? & ?)
  end; fields.

Ltac answered := send; fields; path_end.

(** X18: handling a message never raises and hands exactly one reply to the
    sender, one of the four the service knows.  The sender's URL afterwards
    is the session webhook of the message when that is set and its expiry
    is a positive number, and the URL as it was otherwise; the reply is
    posted to that URL, once, exactly when it is set. *)
Theorem process_message_replies_once message w :
  exists w' extra title content,
    DingTalkWebhookService._process_message E message w = (Ok tt, w') /\
    trace w' = trace w ++ extra /\
    replies extra = [MarkdownMsg title content] /\
    title ∈ titles /\
    webhook_url w'
      = (if truthy (DingTalkMessage.session_webhook message)
            && match gt_zero (DingTalkMessage.session_webhook_expired_time message) with
               | Ok fresh => fresh
               | Raise _ => false
               end
         then DingTalkMessage.session_webhook message
         else webhook_url w) /\
    posts extra
      = (if truthy (webhook_url w')
         then [(webhook_url w', MarkdownMsg title content)] else []).
Proof.
  unfold DingTalkWebhookService._process_message.
  unfold try_except, bind, ret, lift, set_session, logger, emit.
  destruct (truthy (DingTalkMessage.session_webhook message)) eqn:Hsw;
    [destruct (gt_zero (DingTalkMessage.session_webhook_expired_time message))
       as [[|]|e0] eqn:Hexp|]; cbn [andb]; fields.
  3: answered.
  all: destruct (DingTalkCallbackHandler.extract_image_urls message)
         as [[|image_url others]|e1]; fields; [answered| |answered].
  all: destruct (truthy (Images.download_code (DingTalkMessage.images message)));
         [destruct (DingTalkWebhookService.first _) as [download_code|e2]|]; fields;
         [|answered|].
  all: quiet_step.
  all: match goal with r : option Image |- _ => destruct r as [image|] end; fields;
         [|answered].
  all: do 3 quiet_step.
  all: answered.
Qed.

Lemma process_message_returns message w :
  exists w', DingTalkWebhookService._process_message E message w = (Ok tt, w').
Proof.
  unfold DingTalkWebhookService._process_message.
  unfold try_except, bind, ret, lift, set_session, logger, emit.
  destruct (truthy (DingTalkMessage.session_webhook message));
    [destruct (gt_zero (DingTalkMessage.session_webhook_expired_time message))
       as [[|]|e0]|]; fields.
  3: send; by eexists.
  all: destruct (DingTalkCallbackHandler.extract_image_urls message)
         as [[|image_url others]|e1]; fields; [send; by eexists| |send; by eexists].
  all: destruct (truthy (Images.download_code (DingTalkMessage.images message)));
         [destruct (DingTalkWebhookService.first _) as [download_code|e2]|]; fields;
         [|send; by eexists|].
  all: quiet_step.
  all: match goal with r : option Image |- _ => destruct r as [image|] end; fields;
         [|send; by eexists].
  all: do 3 quiet_step.
  all: send; by eexists.
Qed.

(** X19: when the first image of a message cannot be fetched, the message
    is answered with the download-failure reply, and with nothing else:
    nothing is classified or drawn, and the store is not touched. *)
Theorem process_message_download_failed message image_url others download_code w :
  DingTalkCallbackHandler.extract_image_urls message = Ok (image_url :: others) ->
  (truthy (DingTalkMessage.session_webhook message) = false \/
   exists fresh,
     gt_zero (DingTalkMessage.session_webhook_expired_time message) = Ok fresh) ->
  (if truthy (Images.download_code (DingTalkMessage.images message))
   then DingTalkWebhookService.first (Images.download_code (DingTalkMessage.images message))
   else Ok (PStr "")) = Ok download_code ->
  (forall data image,
     E.(http_get) (DingTalkIO.download_url E image_url download_code) = Ok (200, data) ->
     E.(image_open) data <> Ok image) ->
  exists w' extra content,
    DingTalkWebhookService._process_message E message w = (Ok tt, w') /\
    trace w' = trace w ++ extra /\
    replies extra = [MarkdownMsg "图片下载失败" content] /\
    Forall (fun e => match e with Predict _ _ | Draw _ _ _ => False | _ => True end) extra /\
    db w' = db w /\ db_calls w' = db_calls w.
Proof.
  intros Hurls Hfresh Hcode Hfail.
  unfold DingTalkWebhookService._process_message.
  unfold try_except, bind, ret, lift, set_session, logger, emit.
  rewrite Hurls.
  assert (Hpipe : forall extra,
            Forall (fun e => is_pipeline e = false) extra ->
            Forall (fun e => match e with Predict _ _ | Draw _ _ _ => False | _ => True end)
                   extra).
  { intros extra Hextra. eapply Forall_impl; [exact Hextra|]. by intros []. }
  destruct (truthy (DingTalkMessage.session_webhook message)) eqn:Hsw;
    [destruct Hfresh as [[=]|[fresh ->]]; destruct fresh|]; fields;
    (destruct (truthy (Images.download_code (DingTalkMessage.images message)));
     [rewrite Hcode|injection Hcode as <-]);
    (fields;
     match goal with
     | |- context [DingTalkIO.download_image E ?u ?c ?w0] =>
         destruct (download_image_trace E u c w0)
           as (r & w1 & extra1 & -> & Htr1 & Hrep1 & _ & _ & Hdb1 & Hcalls1 & Hquiet1 & Hnone)
     end;
     rewrite (Hnone Hfail); fields;
     match goal with
     | |- context [DingTalkWebhookService._send_download_error_message E ?m ?w0] =>
         destruct (send_download_error_message_trace E m w0)
           as (w2 & extra2 & content & -> & Htr2 & Hrep2 & _ & Hquiet2 & _ & Hdb2 & Hcalls2)
     end;
     exists w2; eexists; exists content; (split; [reflexivity|]);
     (split; [rewrite Htr2, Htr1, <- ?app_assoc; reflexivity|]);
     rewrite ?replies_app, ?replies_cons_log, ?replies_nil, Hrep1, Hrep2;
     split_and!; [done | | congruence | congruence];
     repeat (apply Forall_app; split); auto; by repeat constructor).
Qed.

(** X20: the manual path never raises and hands one reply, the detection
    result, to the sender; like every reply it is posted exactly when the
    sender's URL is set, and without a URL the call returns [False]. *)
Theorem send_manual_detection_result_replies image user_id w :
  exists sent w' extra content,
    DingTalkWebhookService.send_manual_detection_result E image user_id w = (Ok sent, w') /\
    trace w' = trace w ++ extra /\
    replies extra = [MarkdownMsg "锁检测结果" content] /\
    posts extra
      = (if truthy (webhook_url w)
         then [(webhook_url w, MarkdownMsg "锁检测结果" content)] else []) /\
    webhook_url w' = webhook_url w /\
    (truthy (webhook_url w) = false -> sent = false).
Proof.
  unfold DingTalkWebhookService.send_manual_detection_result.
  unfold try_except, bind, ret, lift, logger, emit.
  do 3 quiet_step.
  match goal with
  | |- context [DingTalkIO.send_markdown_message E ?t ?c ?w0] =>
      destruct (send_markdown_message_trace E t c w0)
        as (sent & w' & extra & -> & Htr & Hrep & Hposts & _ & Hurl & _ & _ & Hsent);
      exists sent, w'; eexists; exists c
  end.
  match type of Hposts with
  | context [webhook_url ?w0] =>
      assert (Hsame : webhook_url w0 = webhook_url w) by congruence;
      rewrite Hsame in *
  end.
  split; [reflexivity|]. split; [traced|].
  rewrite ?replies_app, ?posts_app.
  repeat match goal with
         | H : replies _ = _ |- _ => rewrite H; clear H
         | H : posts _ = _ |- _ => rewrite H; clear H
         end.
  cbn [app]. by split_and!.
Qed.

(** What [handle_callback] can do: return a success, or raise the 500 of its
    own [except] branch. *)
Lemma handle_callback_outcome self request w :
  (exists w' message,
     DingTalkWebhookService.handle_callback E self request w
       = (Ok {| DingTalkWebhookService.success := true;
                DingTalkWebhookService.message := message |}, w') /\
     message ∈ ["处理成功"; "消息已忽略"]) \/
  (exists w' detail,
     DingTalkWebhookService.handle_callback E self request w
       = (Raise (HTTPException 500 detail), w')).
Proof.
  unfold DingTalkWebhookService.handle_callback, DingTalkIO.parse_callback_message.
  unfold try_except, bind, ret, raise, lift, logger, emit.
  destruct (negb _); [right; by do 2 eexists|].
  destruct (DingTalkWebhookService.json request) as [body|e]; [|right; by do 2 eexists].
  destruct (DingTalkMessage.from_dict body) as [message|e]; [|right; by do 2 eexists].
  destruct (DingTalkCallbackHandler.is_mentioned_to_bot self message) as [[|]|e];
    [| left; do 2 eexists; split; [reflexivity|]; apply list_elem_of_In; cbn; eauto
     | right; by do 2 eexists].
  fields.
  match goal with
  | |- context [DingTalkWebhookService._process_message E ?m ?w0] =>
      destruct (process_message_returns m w0) as (w' & ->)
  end.
  left. do 2 eexists. split; [reflexivity|]. apply list_elem_of_In; cbn; eauto.
Qed.

(** X21: the webhook endpoint answers 200, 400 or 500, and never 401: it
    answers 400 exactly when no service is configured, and then does
    nothing else; a 200 carries a success; every failure inside
    [handle_callback], the rejected signature included, arrives as 500. *)
Theorem respond_status webhook_service request w :
  exists response w',
    Main.respond E webhook_service request w = (response, w') /\
    Main.status_code response ∈ [200; 400; 500] /\
    (Main.status_code response = 400 <-> webhook_service = None) /\
    (webhook_service = None ->
       response = {| Main.status_code := 400;
                     Main.body := Main.Result false "钉钉服务未配置" |} /\ w' = w) /\
    (Main.status_code response = 200 ->
       exists message, Main.body response = Main.Result true message).
Proof.
  unfold Main.respond, Main.dingtalk_webhook.
  destruct webhook_service as [self|].
  - unfold try_except, bind, ret.
    destruct (handle_callback_outcome self request w)
      as [(w' & message & -> & _)|(w' & detail & ->)];
      do 2 eexists; (split; [reflexivity|]); cbn;
      (split; [apply list_elem_of_In; cbn; eauto|]);
      split_and!; try done; eauto.
  - unfold try_except, ret. do 2 eexists. split; [reflexivity|]. cbn.
    split; [apply list_elem_of_In; cbn; eauto|]. by split_and!.
Qed.

(** X22: the service that [startup_event] and [configure_dingtalk] create
    is bound to the name in apps/webhook_service.py, not to the name the
    endpoint of main.py reads; so, however the application has been
    configured, the endpoint answers 400 to every request and does nothing
    else. *)
Theorem webhook_never_configured app_key app_secret configs request w :
  (configs <> [] ->
   exists service,
     Startup.service_module (Startup.configured app_key app_secret configs) = Some service) /\
  Main.respond E (Startup.main_module (Startup.configured app_key app_secret configs))
    request w
  = ({| Main.status_code := 400; Main.body := Main.Result false "钉钉服务未配置" |}, w).
Proof.
  unfold Startup.configured.
  assert (Hmain : forall g,
            Startup.main_module (fold_left Startup.configure_dingtalk configs g)
            = Startup.main_module g).
  { induction configs as [|config configs IH]; intros g; [done|].
    cbn [fold_left]. by rewrite IH. }
  split.
  - intros Hconfigs.
    destruct (exists_last Hconfigs) as (earlier & config & ->).
    rewrite fold_left_app. cbn. by eexists.
  - rewrite Hmain.
    assert (Startup.main_module (Startup.startup_event Startup.loaded app_key app_secret)
            = None) as ->.
    { unfold Startup.startup_event. by destruct (_ && _). }
    reflexivity.
Qed.

End OneReply.

(** A picture message while the image host is down. *)
Lemma process_message_download_failed_witness :
  let E := Invariants.image_host_down (Scenario.externals (Ok []) (fun _ => false)) in
  exists w' extra content,
    DingTalkWebhookService._process_message E Scenario.image_message Scenario.start
      = (Ok tt, w') /\
    Runtime.trace w' = Runtime.trace Scenario.start ++ extra /\
    Runtime.replies extra = [Runtime.MarkdownMsg "图片下载失败" content] /\
    Runtime.db w' = Runtime.db Scenario.start.
Proof.
  intros E.
  destruct (process_message_download_failed E Scenario.image_message
              (PStr "http://example.com/test.jpg") [] (PStr "test_code") Scenario.start
              eq_refl (or_intror (ex_intro _ true eq_refl)) eq_refl)
    as (w' & extra & content & Hrun & Htr & Hrep & _ & Hdb & _).
  - intros data image [=].
  - by exists w', extra, content.
Defined.
